(** * defguard web client: MFA recovery login and the auth store

    A shallow embedding of

    - [useAuthStore] (the zustand store with its [persist] middleware
      and the rxjs [loginSubject]), and
    - the [MFARecovery] page component (react-hook-form field [code],
      the tanstack mutation that calls the recovery endpoint, the mount
      effect that leaves the page when no second factor is available),

    together with the recovery verifier, which the specification
    describes but whose code lives elsewhere in the repository; and of

    - the [UserDevices] section of the user page (who may manage
      devices, what is rendered, what the add-device box does),
    - the [OverviewPage] (the effect on the fetched networks, the
      [enabled] options of its queries, what it renders), and
    - the value lists of the activity log types. *)

From Stdlib Require Import Ascii.
From stdpp Require Import gmap strings list fin_maps.

(** ** The auth store *)

Module AuthStore.

(** [URLSearchParams] is an ordered list of name/value pairs. *)
Definition URLSearchParams : Type := list (string * string).

Section Store.

(** [User] comes from [shared/types]; the store never looks inside. *)
Context {User : Type}.

(** The values a field of the store object can hold. *)
Inductive Value : Type :=
| VUndefined
| VUser (u : User)
| VParams (p : URLSearchParams)
| VSubject (ref : nat)
| VFunction (name : string)
| VJson (text : string)
| VPlainObject.

(** What [JSON.parse (JSON.stringify v)] gives back for a property
    value: [undefined] and functions are dropped with their key, plain
    data survives, class instances come back as plain objects. *)
Definition json_value (v : Value) : option Value :=
  match v with
  | VUndefined => None
  | VFunction _ => None
  | VUser u => Some (VUser u)
  | VJson t => Some (VJson t)
  | VParams _ => Some VPlainObject
  | VSubject _ => Some VPlainObject
  | VPlainObject => Some VPlainObject
  end.

Definition json_roundtrip (o : gmap string Value) : gmap string Value :=
  omap json_value o.

(** [{ ...a, ...b }] and [Object.assign({}, a, b)]: the keys of [b] win. *)
Definition spread (a b : gmap string Value) : gmap string Value := b ∪ a.

(** lodash [pick (object, paths)]: copy each listed key the object has. *)
Definition pick (object : gmap string Value) (paths : list string)
  : gmap string Value :=
  foldr (fun k result =>
           match object !! k with
           | Some v => <[k:=v]> result
           | None => result
           end) ∅ paths.

(** [partialize: (store) => pick(store, ['user', 'authLocation'])] *)
Definition partialize (store : gmap string Value) : gmap string Value :=
  pick store ["user"; "authLocation"].

(** One browser tab: the store object, the rxjs subjects that exist in
    memory (each with its observers, in subscription order) and the
    ['auth-store'] item of [sessionStorage]. *)
Record Page : Type := mkPage {
  state : gmap string Value;
  subjects : gmap nat (list nat);
  sessionStorage : option (gmap string Value)
}.

(** zustand's [set (partial)] under [persist]: shallow merge into the
    current state, then write the partialized state to the storage. *)
Definition set (partial : gmap string Value) (pg : Page) : Page :=
  let st := spread (state pg) partial in
  {| state := st;
     subjects := subjects pg;
     sessionStorage := Some (json_roundtrip (partialize st)) |}.

(** [setState: (newState) => set({ ...get(), ...newState })] *)
Definition setState (newState : gmap string Value) (pg : Page) : Page :=
  set (spread (state pg) newState) pg.

(** [resetState: () => set({ user: undefined, openIdParams: undefined })] *)
Definition resetState (pg : Page) : Page :=
  set (<["user" := VUndefined]> (<["openIdParams" := VUndefined]> ∅)) pg.

(** The object the state creator returns, with the subject it has just
    allocated. *)
Definition initial (ref : nat) : gmap string Value :=
  <["user" := VUndefined]>
  (<["openIdParams" := VUndefined]>
  (<["loginSubject" := VSubject ref]>
  (<["setState" := VFunction "setState"]>
  (<["resetState" := VFunction "resetState"]> ∅)))).

(** Loading the page: memory starts empty, the creator allocates one
    subject without observers, and [persist] merges what it finds in
    the storage over the initial state ([{ ...current, ...persisted }]). *)
Definition create (storage : option (gmap string Value)) : Page :=
  {| state := spread (initial 0) (default ∅ storage);
     subjects := {[ 0 := [] ]};
     sessionStorage := storage |}.

(** A reload keeps [sessionStorage] and nothing else. *)
Definition reload (pg : Page) : Page := create (sessionStorage pg).

(** The storage holds the JSON image of the partialized state. *)
Definition in_sync (pg : Page) : Prop :=
  default ∅ (sessionStorage pg) = json_roundtrip (partialize (state pg)).

(** The subject the store currently holds, if it holds one. *)
Definition loginSubject (pg : Page) : option nat :=
  match state pg !! "loginSubject" with
  | Some (VSubject ref) => Some ref
  | _ => None
  end.

Definition observers (pg : Page) : list nat :=
  match loginSubject pg with
  | Some ref => default [] (subjects pg !! ref)
  | None => []
  end.

(** [loginSubject.subscribe (k)] *)
Definition subscribe (k : nat) (pg : Page) : Page :=
  match loginSubject pg with
  | Some ref =>
      {| state := state pg;
         subjects := alter (fun obs => obs ++ [k]) ref (subjects pg);
         sessionStorage := sessionStorage pg |}
  | None => pg
  end.

(** [loginSubject.next (data)]: every current observer is handed the
    same value, in subscription order.  The result lists the
    deliveries. *)
Definition next {Data : Type} (pg : Page) (data : Data) : list (nat * Data) :=
  map (fun k => (k, data)) (observers pg).

End Store.

Arguments Value : clear implicits.
Arguments Page : clear implicits.

End AuthStore.

(** ** The recovery-code page *)

Module MFARecovery.

(** The two entries of the locale ([LL.form.error]) the page reads. *)
Record Locale : Type := mkLocale {
  required : string;
  invalidCode : string
}.

(** What the page selects from [useMFAStore]. *)
Record MFAStore : Type := mkMFAStore {
  totp_available : bool;
  webauthn_available : bool;
  email_available : bool
}.

(** [RecoveryLoginRequest], the form values and the request body. *)
Record RecoveryLoginRequest : Type := mkRequest { code : string }.

(** react-hook-form's view of the one field [code]. *)
Record Form : Type := mkForm {
  values_code : string;
  defaultValues_code : string;
  errors_code : option string;
  dirtyFields_code : bool;
  touchedFields_code : bool
}.

Section Component.

(** [LoginSubjectData] is what the recovery endpoint resolves with and
    what [loginSubject] carries; [ApiError] is what it rejects with. *)
Context {LoginSubjectData ApiError : Type}.

(** The locale and [trimObjectStrings] ([shared/utils]) are imported by
    the page. *)
Variable LL : Locale.
Variable trimObjectStrings : RecoveryLoginRequest -> RecoveryLoginRequest.

(** [z.object({ code: z.string().min(1, LL.form.error.required()) })],
    as the resolver reports it for the field. *)
Definition zodSchema (values : RecoveryLoginRequest) : option string :=
  if 1 <=? String.length (code values) then None else Some (required LL).

(** The page while it is on screen and the effects it has had.
    Mutations are numbered in the order [mutate] starts them;
    [requests] logs the calls of the mutation function (the recovery
    endpoint), [pending] holds the mutations whose promise has not
    settled, [published] logs the calls of [loginSubject.next],
    [navigated] those of [navigate], [console] those of
    [console.error]. *)
Record State : Type := mkState {
  form : Form;
  requests : list RecoveryLoginRequest;
  pending : gset nat;
  published : list LoginSubjectData;
  navigated : list string;
  console : list ApiError;
  mounted : bool
}.

(** [isPending] of [useMutation]: the mutation started last has not
    settled. *)
Definition isPending (st : State) : bool :=
  match length (requests st) with
  | 0 => false
  | S latest => bool_decide (latest ∈ pending st)
  end.

(** [useForm({ defaultValues: { code: '' }, mode: 'all', ... })] *)
Definition useForm : Form :=
  {| values_code := "";
     defaultValues_code := "";
     errors_code := None;
     dirtyFields_code := false;
     touchedFields_code := false |}.

(** The effect that runs once after the first render:
    [if (!totpAvailable && !webauthnAvailable && !emailAvailable)
       navigate('../')].
    Navigating to the parent route takes the page off the screen. *)
Definition mount (mfa : MFAStore) : State :=
  let leave := negb (totp_available mfa) && negb (webauthn_available mfa)
               && negb (email_available mfa) in
  {| form := useForm;
     requests := [];
     pending := ∅;
     published := [];
     navigated := if leave then ["../"] else [];
     console := [];
     mounted := negb leave |}.

Definition with_form (f : Form) (st : State) : State :=
  {| form := f;
     requests := requests st;
     pending := pending st;
     published := published st;
     navigated := navigated st;
     console := console st;
     mounted := mounted st |}.

(** The input changes: [mode: 'all'] validates on every change. *)
Definition onChange (text : string) (f : Form) : Form :=
  {| values_code := text;
     defaultValues_code := defaultValues_code f;
     errors_code := zodSchema {| code := text |};
     dirtyFields_code := bool_decide (text ≠ defaultValues_code f);
     touchedFields_code := touchedFields_code f |}.

(** The input loses focus: [mode: 'all'] validates on blur as well. *)
Definition onBlur (f : Form) : Form :=
  {| values_code := values_code f;
     defaultValues_code := defaultValues_code f;
     errors_code := zodSchema {| code := values_code f |};
     dirtyFields_code := dirtyFields_code f;
     touchedFields_code := true |}.

(** [resetField('code', { defaultValue: '', keepDirty: true,
    keepError: true, keepTouched: true })] *)
Definition resetField (f : Form) : Form :=
  {| values_code := "";
     defaultValues_code := "";
     errors_code := errors_code f;
     dirtyFields_code := dirtyFields_code f;
     touchedFields_code := touchedFields_code f |}.

(** [setError('code', { message })] *)
Definition setError (message : string) (f : Form) : Form :=
  {| values_code := values_code f;
     defaultValues_code := defaultValues_code f;
     errors_code := Some message;
     dirtyFields_code := dirtyFields_code f;
     touchedFields_code := touchedFields_code f |}.

Definition clearErrors (f : Form) : Form :=
  {| values_code := values_code f;
     defaultValues_code := defaultValues_code f;
     errors_code := None;
     dirtyFields_code := dirtyFields_code f;
     touchedFields_code := touchedFields_code f |}.

(** [mutate (variables)]: a new mutation starts and calls the mutation
    function at once; nothing is asked about the ones already running. *)
Definition mutate (variables : RecoveryLoginRequest) (st : State) : State :=
  {| form := form st;
     requests := requests st ++ [variables];
     pending := {[ length (requests st) ]} ∪ pending st;
     published := published st;
     navigated := navigated st;
     console := console st;
     mounted := mounted st |}.

(** [handleValidSubmit = (values) => mutate(trimObjectStrings(values))] *)
Definition handleValidSubmit (values : RecoveryLoginRequest) (st : State)
  : State :=
  mutate (trimObjectStrings values) st.

(** [handleSubmit (handleValidSubmit)]: the resolver's errors replace
    the form's; the valid handler runs only when there are none. *)
Definition handleSubmit (st : State) : State :=
  let values := {| code := values_code (form st) |} in
  match zodSchema values with
  | None => handleValidSubmit values (with_form (clearErrors (form st)) st)
  | Some message => with_form (setError message (form st)) st
  end.

(** [onSuccess: (data) => loginSubject.next(data)] *)
Definition onSuccess (data : LoginSubjectData) (st : State) : State :=
  {| form := form st;
     requests := requests st;
     pending := pending st;
     published := published st ++ [data];
     navigated := navigated st;
     console := console st;
     mounted := mounted st |}.

(** [onError]: reset the field, attach the invalid-code message, log. *)
Definition onError (err : ApiError) (st : State) : State :=
  {| form := setError (invalidCode LL) (resetField (form st));
     requests := requests st;
     pending := pending st;
     published := published st;
     navigated := navigated st;
     console := console st ++ [err];
     mounted := mounted st |}.

Definition settle (id : nat) (st : State) : State :=
  {| form := form st;
     requests := requests st;
     pending := pending st ∖ {[ id ]};
     published := published st;
     navigated := navigated st;
     console := console st;
     mounted := mounted st |}.

(** What can happen to the page: the user edits or leaves the input,
    the form's submit handler fires, or the promise of a mutation
    settles. *)
Inductive Event : Type :=
| Change (text : string)
| Blur
| Submit
| Resolve (id : nat) (data : LoginSubjectData)
| Reject (id : nat) (err : ApiError).

(** User events need the page on screen.  The callbacks given to
    [useMutation] belong to the mutation and run whenever its promise
    settles; a promise settles once. *)
Definition step (st : State) (e : Event) : State :=
  match e with
  | Change text =>
      if mounted st then with_form (onChange text (form st)) st else st
  | Blur =>
      if mounted st then with_form (onBlur (form st)) st else st
  | Submit =>
      if mounted st then handleSubmit st else st
  | Resolve id data =>
      if bool_decide (id ∈ pending st) then onSuccess data (settle id st)
      else st
  | Reject id err =>
      if bool_decide (id ∈ pending st) then onError err (settle id st)
      else st
  end.

Definition run (st : State) (events : list Event) : State :=
  fold_left step events st.

(** Each request the page has sent is still pending, was answered with
    a publication, or was answered with a logged error; pending
    mutations are among those started. *)
Definition accounted (st : State) : Prop :=
  length (published st) + size (pending st) + length (console st)
    = length (requests st)
  ∧ ∀ id, id ∈ pending st → id < length (requests st).

(** One full failed round: type a code, submit it, the endpoint
    rejects the mutation this submit started. *)
Definition rejected_round (text : string) (err : ApiError) (st : State)
  : State :=
  run st [Change text; Submit; Reject (length (requests st)) err].

End Component.

Arguments State : clear implicits.
Arguments Event : clear implicits.

End MFARecovery.

(** ** The recovery verifier *)

Module RecoveryVerifier.

Inductive Reason : Type := AlreadyUsed | Invalid.

Inductive Refusal : Type :=
| Rejected (reason : Reason)
| LockedOut.

Inductive Verdict (Session : Type) : Type :=
| Accepted (session : Session)
| Refused (refusal : Refusal).

Arguments Accepted {Session} session.
Arguments Refused {Session} refusal.

(** The single-use codes of one identity: those still usable and those
    already consumed. *)
Record Codes : Type := mkCodes {
  unused : gset string;
  consumed : gset string
}.

(** Modelled from the spec: the recovery verifier [verifyRecovery]
    behind the [recovery] endpoint, which is server code and not part
    of the sources at hand.  A code is consumed by the verification
    that accepts it; a consumed code is refused as [AlreadyUsed], any
    other unknown code as [Invalid].  The spec gives the verifier no
    rule for [LockedOut], so this model never answers it. *)
Definition verifyRecovery {Session : Type} (session_of : string -> Session)
    (submitted : string) (c : Codes) : Verdict Session * Codes :=
  if decide (submitted ∈ consumed c) then (Refused (Rejected AlreadyUsed), c)
  else if decide (submitted ∈ unused c) then
    (Accepted (session_of submitted),
     {| unused := unused c ∖ {[ submitted ]};
        consumed := {[ submitted ]} ∪ consumed c |})
  else (Refused (Rejected Invalid), c).

End RecoveryVerifier.

(** ** The page together with the verifier *)

Module Login.

Import MFARecovery RecoveryVerifier.

Section Attempt.

Context {Session : Type}.
Variable LL : Locale.
Variable trimObjectStrings : RecoveryLoginRequest -> RecoveryLoginRequest.
Variable session_of : string -> Session.

Record System : Type := mkSystem {
  page : State Session Refusal;
  codes : Codes
}.

(** The endpoint handles the request of mutation [id] and its promise
    settles with the verdict. *)
Definition respond (id : nat) (sys : System) : System :=
  match requests (page sys) !! id with
  | Some request =>
      match verifyRecovery session_of (code request) (codes sys) with
      | (Accepted session, codes') =>
          {| page := step LL trimObjectStrings (page sys) (Resolve id session);
             codes := codes' |}
      | (Refused refusal, codes') =>
          {| page := step LL trimObjectStrings (page sys) (Reject id refusal);
             codes := codes' |}
      end
  | None => sys
  end.

(** The user types [text] and submits; if that started a mutation, the
    endpoint answers it. *)
Definition submit_code (text : string) (sys : System) : System :=
  let before := length (requests (page sys)) in
  let page' := run LL trimObjectStrings (page sys) [Change text; Submit] in
  let sys' := {| page := page'; codes := codes sys |} in
  if before <? length (requests page') then respond before sys' else sys'.

(** The reason the page shows for the failed factor. *)
Definition shown_reason (sys : System) : option string :=
  errors_code (form (page sys)).

(** Two outcomes can be told apart on the page when the form does not
    look the same after them. *)
Definition distinguishable (a b : System) : Prop :=
  form (page a) ≠ form (page b).

End Attempt.

Arguments System : clear implicits.

End Login.

(** ** Concrete instances for evaluating the model *)

Module Sample.

Import MFARecovery.

(** A locale with English messages. *)
Definition LL : Locale :=
  {| required := "Field is required";
     invalidCode := "Enter a valid code" |}.

Definition is_space (a : ascii) : bool :=
  bool_decide (a = " "%char) || bool_decide (a = "009"%char)
  || bool_decide (a = "010"%char) || bool_decide (a = "013"%char).

Fixpoint trim_start (s : list ascii) : list ascii :=
  match s with
  | a :: rest => if is_space a then trim_start rest else s
  | [] => []
  end.

Definition trim (s : string) : string :=
  String.string_of_list_ascii
    (rev (trim_start (rev (trim_start (String.list_ascii_of_string s))))).

(** An instance of [trimObjectStrings]: white space is removed at both
    ends of every string of the object. *)
Definition trimObjectStrings (values : RecoveryLoginRequest)
  : RecoveryLoginRequest :=
  {| code := trim (code values) |}.

(** A user with the second factors given, and one without any. *)
Definition with_totp : MFAStore :=
  {| totp_available := true; webauthn_available := false;
     email_available := false |}.

Definition no_factor : MFAStore :=
  {| totp_available := false; webauthn_available := false;
     email_available := false |}.

(** The page as mounted for [with_totp], with data and errors both
    written as strings. *)
Definition start : State string string := mount with_totp.

Definition step := @MFARecovery.step string string LL trimObjectStrings.
Definition run := @MFARecovery.run string string LL trimObjectStrings.

(** A verifier that knows the unused code [RC-1] and answers with the
    session of the code's owner. *)
Definition codes : RecoveryVerifier.Codes :=
  {| RecoveryVerifier.unused := {[ "RC-1" ]};
     RecoveryVerifier.consumed := ∅ |}.

Definition session_of (submitted : string) : string := "session".

Definition system : Login.System string :=
  {| Login.page := mount with_totp; Login.codes := codes |}.

Definition submit_code :=
  @Login.submit_code string LL trimObjectStrings session_of.

(** A page of the auth store with a user logged in, authorization
    parameters pending and one subscriber. *)
Definition page : AuthStore.Page string :=
  AuthStore.subscribe 7
    (AuthStore.setState
       (<["user" := AuthStore.VUser "admin"]>
        (<["openIdParams" := AuthStore.VParams [("client_id", "app")]]> ∅))
       (AuthStore.create None)).

End Sample.

(** A run of the store: the actions of its interface, subscriptions to
    the subject it holds, and reloads of the page. *)
Module AuthSession.

Import AuthStore.

Section Ops.

Context {User : Type}.

Inductive Op : Type :=
| SetState (newState : gmap string (Value User))
| ResetState
| Subscribe (k : nat)
| Reload.

Definition perform (pg : Page User) (op : Op) : Page User :=
  match op with
  | SetState newState => setState newState pg
  | ResetState => resetState pg
  | Subscribe k => subscribe k pg
  | Reload => reload pg
  end.

(** The tab is opened with an empty storage and the operations follow. *)
Definition session (ops : list Op) : Page User :=
  fold_left perform ops (create None).

End Ops.

End AuthSession.

(** ** The devices section of the user page *)

Module UserDevices.

Record Device : Type := mkDevice {
  device_id : Z;
  device_name : string
}.

Record User : Type := mkUser {
  username : string;
  user_id : Z;
  email : string
}.

Record UserProfile : Type := mkUserProfile {
  user : User;
  devices : list Device
}.

Record AppInfo : Type := mkAppInfo { network_present : bool }.

Record EnterpriseSettings : Type := mkSettings {
  admin_device_management : bool
}.

Record AuthUser : Type := mkAuthUser { is_admin : bool }.

(** What the section selects from its stores; [None] is [undefined]. *)
Record Stores : Type := mkStores {
  appInfo : option AppInfo;
  enterprise_settings : option EnterpriseSettings;
  userProfile : option UserProfile;
  auth_user : option AuthUser
}.

(** Truthiness of a value that is a boolean or [undefined]. *)
Definition truthy (x : option bool) : bool := default false x.

(** [state.user?.is_admin] *)
Definition isAdmin (s : Stores) : option bool := is_admin <$> auth_user s.

(** [!!(userProfile && (!settings?.admin_device_management || isAdmin))] *)
Definition canManageDevices (s : Stores) : bool :=
  match userProfile s with
  | None => false
  | Some _ =>
      truthy
        (if negb (truthy (admin_device_management <$> enterprise_settings s))
         then Some true
         else isAdmin s)
  end.

Record DeviceCard : Type := mkDeviceCard {
  key : Z;
  device : Device;
  modifiable : bool
}.

(** The children of the section, in the order they are rendered. *)
Inductive Element : Type :=
| Header
| Skeletons (count : nat)
| DevicesList (cards : list DeviceCard)
| AddComponentBox (disabled : bool)
| DeleteUserDeviceModal
| EditUserDeviceModal
| DeviceConfigModal.

Definition cards (s : Stores) (p : UserProfile) : list DeviceCard :=
  map (fun d => {| key := device_id d; device := d;
                   modifiable := canManageDevices s |})
      (devices p).

(** [disabled={!appInfo?.network_present || !canManageDevices}] *)
Definition addDevice_disabled (s : Stores) : bool :=
  negb (truthy (network_present <$> appInfo s)) || negb (canManageDevices s).

Definition render (s : Stores) : list Element :=
  [Header]
  ++ match userProfile s with
     | None => [Skeletons 3]
     | Some _ => []
     end
  ++ match userProfile s with
     | Some p =>
         (if 0 <? length (devices p) then [DevicesList (cards s p)] else [])
         ++ [AddComponentBox (addDevice_disabled s)]
     | None => []
     end
  ++ [DeleteUserDeviceModal; EditUserDeviceModal; DeviceConfigModal].

(** What the add-device box does when it is used: the argument of
    [initAddDevice] and the call of [navigate]. *)
Record AddDeviceInit : Type := mkInit {
  init_username : string;
  init_id : Z;
  reservedDevices : list string;
  init_email : string;
  originRoutePath : string
}.

Definition callback (p : UserProfile) (pathname : string)
  : AddDeviceInit * (string * bool) :=
  ({| init_username := username (user p);
      init_id := user_id (user p);
      reservedDevices := map device_name (devices p);
      init_email := email (user p);
      originRoutePath := pathname |},
   ("/add-device", true)).

(** The cards and the box the section shows. *)
Definition shown_cards (s : Stores) : list DeviceCard :=
  concat (omap (fun e => match e with DevicesList c => Some c | _ => None end)
               (render s)).

Definition shown_boxes (s : Stores) : list bool :=
  omap (fun e => match e with AddComponentBox d => Some d | _ => None end)
       (render s).

Definition shown_skeletons (s : Stores) : list nat :=
  omap (fun e => match e with Skeletons n => Some n | _ => None end)
       (render s).

End UserDevices.

(** ** The network overview page *)

Module OverviewPage.

Record Network : Type := mkNetwork {
  network_id : Z;
  network_name : string
}.

(** A number that is an integer or [NaN]: what [parseInt] returns. *)
Definition Number : Type := option Z.

Definition isNaN (n : Number) : bool :=
  match n with None => true | Some _ => false end.

(** [isUndefined] of a number. *)
Definition isUndefined_number (n : Number) : bool := false.

(** [ids.includes (n)]: same-value-zero equality; the ids are integers. *)
Definition includes (ids : list Z) (n : Number) : bool :=
  match n with
  | Some z => bool_decide (z ∈ ids)
  | None => false
  end.

(** lodash [orderBy (networks, ['id'], ['asc'])]: a stable sort by id. *)
Fixpoint insert_by_id (n : Network) (sorted : list Network) : list Network :=
  match sorted with
  | [] => [n]
  | m :: rest =>
      if (network_id n <=? network_id m)%Z then n :: sorted
      else m :: insert_by_id n rest
  end.

Definition orderBy (networks : list Network) : list Network :=
  foldr insert_by_id [] networks.

(** What the effects of the page act on: the router, the wizard store
    and the two fields of the overview store they set. *)
Record World : Type := mkWorld {
  navigations : list (string * bool);
  wizard_resets : nat;
  store_networks : option (list Network);
  store_selectedNetworkId : option Z
}.

(** [navigate (to, { replace: true })] *)
Definition navigate (to : string) (w : World) : World :=
  {| navigations := navigations w ++ [(to, true)];
     wizard_resets := wizard_resets w;
     store_networks := store_networks w;
     store_selectedNetworkId := store_selectedNetworkId w |}.

Definition resetWizard (w : World) : World :=
  {| navigations := navigations w;
     wizard_resets := S (wizard_resets w);
     store_networks := store_networks w;
     store_selectedNetworkId := store_selectedNetworkId w |}.

(** [setOverViewStore ({ networks })] *)
Definition set_networks (networks : list Network) (w : World) : World :=
  {| navigations := navigations w;
     wizard_resets := wizard_resets w;
     store_networks := Some networks;
     store_selectedNetworkId := store_selectedNetworkId w |}.

(** [setOverViewStore ({ selectedNetworkId })] *)
Definition set_selectedNetworkId (id : Z) (w : World) : World :=
  {| navigations := navigations w;
     wizard_resets := wizard_resets w;
     store_networks := store_networks w;
     store_selectedNetworkId := Some id |}.

(** An effect ends normally or with a [TypeError] (a property read
    from [undefined]). *)
Inductive Outcome : Type :=
| Done (w : World)
| TypeError.

(** The effect on [fetchNetworksData] and [selectedNetworkId]. *)
Definition networksEffect (selectedNetworkId : Number) (search : string)
    (fetchNetworksData : option (list Network)) (w : World) : Outcome :=
  let w1 :=
    if isNaN selectedNetworkId
    then navigate ("/admin/overview/" +:+ search) w
    else w in
  match fetchNetworksData with
  | None => Done w1
  | Some data =>
      if bool_decide (length data = 0) then
        Done (navigate "/admin/wizard" (resetWizard w1))
      else
        let w2 := set_networks data w1 in
        let ids := map network_id data in
        if isUndefined_number selectedNetworkId
           || (negb (isUndefined_number selectedNetworkId)
               && negb (includes ids selectedNetworkId))
        then
          match head (orderBy data) with
          | Some oldestNetwork =>
              Done (set_selectedNetworkId (network_id oldestNetwork) w2)
          | None => TypeError
          end
        else Done w2
  end.

(** The [enabled] options of the two statistics queries. *)
Definition networkStats_enabled (selectedNetworkId : Number) : bool :=
  negb (isUndefined_number selectedNetworkId) && negb (isNaN selectedNetworkId).

Definition overviewStats_enabled {Filter : Type} (statsFilter : option Filter)
    (selectedNetworkId : Number) : bool :=
  negb (bool_decide (statsFilter = None))
  && negb (isUndefined_number selectedNetworkId)
  && negb (isNaN selectedNetworkId).

Section Render.

(** The statistics come from the API types; the page only passes them
    on and looks at the lengths of the two lists. *)
Context {NetworkStats UserStats DeviceStats : Type}.

Record NetworkUsers : Type := mkNetworkUsers {
  network_devices : list DeviceStats;
  user_devices : list UserStats
}.

(** What the [bottom-row] element can hold. *)
Inductive RowElement : Type :=
| StatsLoader (size : nat)
| NoData
| ConnectedUsers (stats : list UserStats)
| ConnectedDevices (cards : list DeviceStats).

Inductive Element : Type :=
| OverviewHeader
| NetworkGatewaysStatus (networkId : Number)
| OverviewStats (networkStats : NetworkStats)
| BottomRow (children : list RowElement).

(** The children of the [bottom-row] element.  [getNetworkUsers] is
    the memoized value as the page has it: the statistics sorted with
    [sortByDate], or [undefined] while there are none. *)
Definition bottomRow (userStatsLoading : bool)
    (getNetworkUsers : option NetworkUsers) : list RowElement :=
  (if userStatsLoading then [StatsLoader 180] else [])
  ++ (if negb (bool_decide (is_Some getNetworkUsers)) && negb userStatsLoading
      then [NoData] else [])
  ++ match getNetworkUsers with
     | Some users =>
         (if negb userStatsLoading
             && bool_decide (length (network_devices users) = 0)
             && bool_decide (length (user_devices users) = 0)
          then [NoData] else [])
         ++ (if negb userStatsLoading && (0 <? length (user_devices users))
             then [ConnectedUsers (user_devices users)] else [])
         ++ (if negb userStatsLoading && (0 <? length (network_devices users))
             then [ConnectedDevices (network_devices users)] else [])
     | None => []
     end.

(** The children of the page container. *)
Definition render (breakpoint : string) (selectedNetworkId : Number)
    (networkStats : option NetworkStats) (userStatsLoading : bool)
    (getNetworkUsers : option NetworkUsers) : list Element :=
  [OverviewHeader]
  ++ (if bool_decide (breakpoint = "desktop")
         && negb (isUndefined_number selectedNetworkId)
      then [NetworkGatewaysStatus selectedNetworkId] else [])
  ++ match networkStats with
     | Some stats => [OverviewStats stats]
     | None => []
     end
  ++ [BottomRow (bottomRow userStatsLoading getNetworkUsers)].

End Render.

Arguments NetworkUsers : clear implicits.
Arguments RowElement : clear implicits.
Arguments Element : clear implicits.

End OverviewPage.

(** ** The activity log types *)

Module ActivityLog.

Inductive ActivityLogModule : Type :=
| defguard | client | vpn | enrollment.

Definition module_literal (m : ActivityLogModule) : string :=
  match m with
  | defguard => "defguard"
  | client => "client"
  | vpn => "vpn"
  | enrollment => "enrollment"
  end.

Definition activityLogModuleValues : list string :=
  ["defguard"; "client"; "enrollment"; "vpn"].

Inductive ActivityLogEventType : Type :=
| user_login | user_login_failed | user_mfa_login | user_mfa_login_failed
| recovery_code_used | user_logout | user_added | user_modified
| user_removed | mfa_disabled | mfa_totp_enabled | mfa_totp_disabled
| mfa_email_enabled | mfa_email_disabled | mfa_security_key_added
| mfa_security_key_removed | device_added | device_modified
| device_removed | network_device_added | network_device_modified
| network_device_removed | activity_log_stream_created
| activity_log_stream_modified | activity_log_stream_removed
| vpn_client_connected | vpn_client_disconnected
| vpn_client_connected_mfa | vpn_client_disconnected_mfa
| vpn_client_mfa_failed | enrollment_started | enrollment_device_added
| enrollment_completed | password_reset_requested
| password_reset_started | password_reset_completed.

Definition event_literal (e : ActivityLogEventType) : string :=
  match e with
  | user_login => "user_login"
  | user_login_failed => "user_login_failed"
  | user_mfa_login => "user_mfa_login"
  | user_mfa_login_failed => "user_mfa_login_failed"
  | recovery_code_used => "recovery_code_used"
  | user_logout => "user_logout"
  | user_added => "user_added"
  | user_modified => "user_modified"
  | user_removed => "user_removed"
  | mfa_disabled => "mfa_disabled"
  | mfa_totp_enabled => "mfa_totp_enabled"
  | mfa_totp_disabled => "mfa_totp_disabled"
  | mfa_email_enabled => "mfa_email_enabled"
  | mfa_email_disabled => "mfa_email_disabled"
  | mfa_security_key_added => "mfa_security_key_added"
  | mfa_security_key_removed => "mfa_security_key_removed"
  | device_added => "device_added"
  | device_modified => "device_modified"
  | device_removed => "device_removed"
  | network_device_added => "network_device_added"
  | network_device_modified => "network_device_modified"
  | network_device_removed => "network_device_removed"
  | activity_log_stream_created => "activity_log_stream_created"
  | activity_log_stream_modified => "activity_log_stream_modified"
  | activity_log_stream_removed => "activity_log_stream_removed"
  | vpn_client_connected => "vpn_client_connected"
  | vpn_client_disconnected => "vpn_client_disconnected"
  | vpn_client_connected_mfa => "vpn_client_connected_mfa"
  | vpn_client_disconnected_mfa => "vpn_client_disconnected_mfa"
  | vpn_client_mfa_failed => "vpn_client_mfa_failed"
  | enrollment_started => "enrollment_started"
  | enrollment_device_added => "enrollment_device_added"
  | enrollment_completed => "enrollment_completed"
  | password_reset_requested => "password_reset_requested"
  | password_reset_started => "password_reset_started"
  | password_reset_completed => "password_reset_completed"
  end.

Definition activityLogEventTypeValues : list string :=
  [ "user_login"; "user_login_failed"; "user_mfa_login";
    "user_mfa_login_failed"; "recovery_code_used"; "user_logout";
    "user_added"; "user_modified"; "user_removed"; "mfa_disabled";
    "mfa_totp_enabled"; "mfa_totp_disabled"; "mfa_email_enabled";
    "mfa_email_disabled"; "mfa_security_key_added";
    "mfa_security_key_removed"; "device_added"; "device_modified";
    "device_removed"; "network_device_added"; "network_device_modified";
    "network_device_removed"; "activity_log_stream_created";
    "activity_log_stream_modified"; "activity_log_stream_removed";
    "vpn_client_connected"; "vpn_client_disconnected";
    "vpn_client_connected_mfa"; "vpn_client_disconnected_mfa";
    "vpn_client_mfa_failed"; "enrollment_started";
    "enrollment_device_added"; "enrollment_completed";
    "password_reset_requested"; "password_reset_started";
    "password_reset_completed" ].

End ActivityLog.

(** ** Concrete instances for the pages *)

Module Examples.

(** A user with two devices, on an instance that reserves device
    management for admins and has a network; the logged-in user is not
    an admin. *)
Definition profile : UserDevices.UserProfile :=
  {| UserDevices.user :=
       {| UserDevices.username := "alice"; UserDevices.user_id := 4;
          UserDevices.email := "alice@example.com" |};
     UserDevices.devices :=
       [ {| UserDevices.device_id := 11; UserDevices.device_name := "laptop" |};
         {| UserDevices.device_id := 12; UserDevices.device_name := "phone" |} ] |}.

Definition restricted : UserDevices.Stores :=
  {| UserDevices.appInfo := Some {| UserDevices.network_present := true |};
     UserDevices.enterprise_settings :=
       Some {| UserDevices.admin_device_management := true |};
     UserDevices.userProfile := Some profile;
     UserDevices.auth_user := Some {| UserDevices.is_admin := false |} |}.

(** The same user before the enterprise settings have arrived. *)
Definition settings_missing : UserDevices.Stores :=
  {| UserDevices.appInfo := Some {| UserDevices.network_present := true |};
     UserDevices.enterprise_settings := None;
     UserDevices.userProfile := Some profile;
     UserDevices.auth_user := Some {| UserDevices.is_admin := false |} |}.

(** Three networks, not in the order of their ids. *)
Definition networks : list OverviewPage.Network :=
  [ {| OverviewPage.network_id := 7; OverviewPage.network_name := "office" |};
    {| OverviewPage.network_id := 3; OverviewPage.network_name := "lab" |};
    {| OverviewPage.network_id := 5; OverviewPage.network_name := "guests" |} ].

Definition world : OverviewPage.World :=
  {| OverviewPage.navigations := [];
     OverviewPage.wizard_resets := 0;
     OverviewPage.store_networks := None;
     OverviewPage.store_selectedNetworkId := None |}.

(** Statistics with one connected user and no connected device. *)
Definition users_only : OverviewPage.NetworkUsers string string :=
  {| OverviewPage.network_devices := [];
     OverviewPage.user_devices := ["alice"] |}.

End Examples.

(** * Properties of the auth store *)

Section AuthStoreFacts.

Import AuthStore AuthSession.

Context {User : Type}.

Implicit Types (pg : Page User) (o : gmap string (Value User)).

Lemma lookup_spread o1 o2 (k : string) :
  spread o1 o2 !! k = match o2 !! k with Some v => Some v | None => o1 !! k end.
Proof.
  unfold spread. rewrite lookup_union.
  destruct (o2 !! k), (o1 !! k); reflexivity.
Qed.

Lemma lookup_pick o (paths : list string) (k : string) :
  pick o paths !! k = if decide (k ∈ paths) then o !! k else None.
Proof.
  induction paths as [|p paths IH].
  - unfold pick; simpl. by rewrite lookup_empty.
  - change (pick o (p :: paths)) with
      (match o !! p with
       | Some v => <[p:=v]> (pick o paths)
       | None => pick o paths
       end).
    destruct (decide (k = p)) as [->|Hne].
    + rewrite (decide_True (P := p ∈ p :: paths)) by set_solver.
      destruct (o !! p) eqn:Hp.
      * by rewrite lookup_insert_eq.
      * rewrite IH. case_decide; done.
    + assert (pick o paths !! k =
                if decide (k ∈ p :: paths) then o !! k else None) as Hrest.
      { rewrite IH. case_decide as Hin.
        - rewrite decide_True; [done|]. rewrite elem_of_cons. tauto.
        - rewrite decide_False; [done|]. rewrite elem_of_cons. tauto. }
      destruct (o !! p); [rewrite lookup_insert_ne by done|]; exact Hrest.
Qed.

Lemma persisted_key (k : string) :
  k ∈ ["user"; "authLocation"] -> k = "user" ∨ k = "authLocation".
Proof. rewrite !elem_of_cons, elem_of_nil. tauto. Qed.

Lemma lookup_persisted o (k : string) :
  json_roundtrip (partialize o) !! k =
  if decide (k ∈ ["user"; "authLocation"]) then o !! k ≫= json_value else None.
Proof.
  unfold json_roundtrip, partialize. rewrite lookup_omap, lookup_pick.
  case_decide; done.
Qed.

Lemma json_value_idempotent (v w : Value User) :
  json_value v = Some w -> json_value w = Some w.
Proof. destruct v; simpl; intros [= <-]; reflexivity. Qed.

Lemma in_sync_set partial pg : in_sync (set partial pg).
Proof. reflexivity. Qed.

Lemma in_sync_create stored o :
  stored = json_roundtrip (partialize o) -> in_sync (create (Some stored)).
Proof.
  intros ->. unfold in_sync, create; simpl.
  apply map_eq; intros k.
  rewrite !lookup_persisted. case_decide as Hk; [|done].
  rewrite lookup_spread, lookup_persisted, decide_True by done.
  destruct (o !! k ≫= json_value) as [w|] eqn:Hw; simpl.
  - destruct (o !! k) as [v|]; [|done]. simpl in Hw.
    by apply json_value_idempotent in Hw.
  - destruct (persisted_key k Hk) as [-> | ->]; reflexivity.
Qed.

Lemma in_sync_session (ops : list Op) :
  in_sync (session ops : Page User).
Proof.
  unfold session.
  assert (in_sync (create (User := User) None)) as Hstart.
  { unfold in_sync; simpl. apply map_eq; intros k.
    rewrite lookup_persisted, lookup_empty. case_decide as Hk; [|done].
    destruct (persisted_key k Hk) as [-> | ->]; reflexivity. }
  revert Hstart. generalize (create (User := User) None).
  induction ops as [|op ops IH]; intros pg Hpg; [done|].
  simpl. apply IH. destruct op; simpl.
  - apply in_sync_set.
  - apply in_sync_set.
  - unfold subscribe. destruct (loginSubject pg); done.
  - unfold reload. destruct (sessionStorage pg) as [stored|] eqn:Hs.
    + apply (in_sync_create _ (state pg)). unfold in_sync in Hpg.
      rewrite Hs in Hpg. done.
    + unfold in_sync in *. rewrite Hs in Hpg. simpl in *.
      rewrite Hpg. apply (in_sync_create _ (state pg)). done.
Qed.

(** C9. [resetState] sets the fields [user] and [openIdParams] to
    [undefined] and changes no other field of the store; the store
    holds the same subject with the same observers, so whoever
    subscribed before the reset is still handed what is published
    after it. *)
Theorem resetState_frame pg :
  state (resetState pg) !! "user" = Some VUndefined ∧
  state (resetState pg) !! "openIdParams" = Some VUndefined ∧
  (∀ k : string, k ≠ "user" → k ≠ "openIdParams" →
     state (resetState pg) !! k = state pg !! k) ∧
  loginSubject (resetState pg) = loginSubject pg ∧
  subjects (resetState pg) = subjects pg ∧
  (∀ (Data : Type) (k : nat) (data : Data),
     k ∈ observers pg → (k, data) ∈ next (resetState pg) data).
Proof.
  assert (∀ k : string, k ≠ "user" → k ≠ "openIdParams" →
            state (resetState pg) !! k = state pg !! k) as Hframe.
  { intros k Hu Ho. unfold resetState, set; simpl.
    rewrite lookup_spread, !lookup_insert_ne, lookup_empty by done. done. }
  assert (loginSubject (resetState pg) = loginSubject pg) as Hsubject.
  { unfold loginSubject. by rewrite Hframe. }
  split; [|split; [|repeat split; try done]].
  - unfold resetState, set; simpl.
    by rewrite lookup_spread, lookup_insert_eq.
  - unfold resetState, set; simpl.
    by rewrite lookup_spread, lookup_insert_ne, lookup_insert_eq.
  - intros Data k data Hk. unfold next, observers in *.
    rewrite Hsubject. simpl.
    apply list_elem_of_fmap. by exists k.
Qed.

(** C10. Whatever is done with the store, the storage holds nothing
    but the fields [user] and [authLocation]: [openIdParams] and
    [loginSubject] are never written.  After a reload [openIdParams] is
    [undefined] and the store holds a newly made subject that nobody
    has subscribed to, whatever the state was before; a user that was
    set is read back. *)
Theorem persist_only_user_and_authLocation (ops : list Op) :
  let pg : Page User := session ops in
  (∀ stored, sessionStorage pg = Some stored →
     dom stored ⊆ {[ "user"; "authLocation" ]} ∧
     stored !! "openIdParams" = None ∧ stored !! "loginSubject" = None) ∧
  state (reload pg) !! "openIdParams" = Some VUndefined ∧
  state (reload pg) !! "loginSubject" = Some (VSubject 0) ∧
  subjects (reload pg) = {[ 0 := [] ]} ∧
  observers (reload pg) = [] ∧
  (∀ u, state pg !! "user" = Some (VUser u) →
     state (reload pg) !! "user" = Some (VUser u)).
Proof.
  intros pg. pose proof (in_sync_session ops) as Hsync.
  fold pg in Hsync. unfold in_sync in Hsync.
  assert (∀ k : string, k ≠ "user" → k ≠ "authLocation" →
            default ∅ (sessionStorage pg) !! k = None) as Hother.
  { intros k Hu Ha. rewrite Hsync, lookup_persisted.
    rewrite decide_False; [done|].
    rewrite !elem_of_cons, elem_of_nil. tauto. }
  assert (∀ k : string, k ≠ "user" → k ≠ "authLocation" →
            state (reload pg) !! k = initial 0 !! k) as Hfresh.
  { intros k Hu Ha. unfold reload, create; simpl.
    by rewrite lookup_spread, Hother. }
  split; [|repeat split].
  - intros stored Hs. rewrite Hs in Hother. simpl in Hother.
    split; [|split; by apply Hother].
    intros k Hk. apply elem_of_dom in Hk as [v Hv].
    destruct (decide (k = "user")) as [->|Hu]; [set_solver|].
    destruct (decide (k = "authLocation")) as [->|Ha]; [set_solver|].
    rewrite Hother in Hv by done. done.
  - by rewrite Hfresh.
  - by rewrite Hfresh.
  - unfold observers, loginSubject. rewrite Hfresh by done. reflexivity.
  - intros u Hu. unfold reload, create; simpl.
    rewrite lookup_spread, Hsync, lookup_persisted, Hu. reflexivity.
Qed.

End AuthStoreFacts.

(** * Properties of the recovery-code page *)

Section MFARecoveryFacts.

Import MFARecovery.

Context {LoginSubjectData ApiError : Type}.
Variable LL : Locale.
Variable trimObjectStrings : RecoveryLoginRequest -> RecoveryLoginRequest.

#[local] Abbreviation State := (State LoginSubjectData ApiError).
#[local] Abbreviation Event := (Event LoginSubjectData ApiError).
#[local] Abbreviation mount := (@mount LoginSubjectData ApiError).
#[local] Abbreviation step := (step LL trimObjectStrings).
#[local] Abbreviation run := (run LL trimObjectStrings).
#[local] Abbreviation handleSubmit := (handleSubmit LL trimObjectStrings).
#[local] Abbreviation rejected_round := (rejected_round LL trimObjectStrings).

Implicit Types (st : State) (e : Event) (events : list Event).

Lemma zodSchema_valid (text : string) :
  1 ≤ String.length text -> zodSchema LL {| code := text |} = None.
Proof.
  intros Hlen. unfold zodSchema. cbn [code].
  apply Nat.leb_le in Hlen. by rewrite Hlen.
Qed.

Lemma zodSchema_empty : zodSchema LL {| code := "" |} = Some (required LL).
Proof. reflexivity. Qed.

(** *** Every mutation is accounted for *)

Lemma accounted_mount mfa : accounted (mount mfa).
Proof.
  split; simpl.
  - reflexivity.
  - intros id Hid. by apply not_elem_of_empty in Hid.
Qed.

Lemma accounted_mutate variables st :
  accounted st -> accounted (mutate variables st).
Proof.
  intros [Hsum Hbound]. split; simpl.
  - rewrite length_app; simpl.
    rewrite size_union, size_singleton; [lia|].
    apply disjoint_singleton_l. intros Hin. apply Hbound in Hin. lia.
  - intros id. rewrite length_app, elem_of_union, elem_of_singleton; simpl.
    intros [-> | Hin]; [lia|]. apply Hbound in Hin. lia.
Qed.

Lemma size_settle id st :
  id ∈ pending st -> S (size (pending (settle id st))) = size (pending st).
Proof.
  intros Hin. simpl.
  assert (size (pending st ∖ {[ id ]}) = size (pending st) - 1) as ->.
  { rewrite size_difference, size_singleton; [done|].
    by apply singleton_subseteq_l. }
  assert (size (pending st) ≠ 0); [|lia].
  intros Hzero. apply size_empty_inv in Hzero.
  apply (Hzero id) in Hin. by apply not_elem_of_empty in Hin.
Qed.

Lemma accounted_step st e : accounted st -> accounted (step st e).
Proof.
  intros Hacc. destruct e as [text| | |id data|id err]; simpl.
  - destruct (mounted st); done.
  - destruct (mounted st); done.
  - destruct (mounted st); [|done]. unfold handleSubmit.
    destruct (zodSchema _ _); [done|].
    by apply accounted_mutate.
  - case_bool_decide as Hin; [|done].
    destruct Hacc as [Hsum Hbound]. pose proof (size_settle id st Hin) as Hs.
    split; simpl in *.
    + rewrite length_app; simpl. lia.
    + intros id'. rewrite elem_of_difference. intros [Hin' _]. auto.
  - case_bool_decide as Hin; [|done].
    destruct Hacc as [Hsum Hbound]. pose proof (size_settle id st Hin) as Hs.
    split; simpl in *.
    + rewrite length_app; simpl. lia.
    + intros id'. rewrite elem_of_difference. intros [Hin' _]. auto.
Qed.

Lemma accounted_run events st : accounted st -> accounted (run st events).
Proof.
  revert st. induction events as [|e events IH]; intros st Hacc; [done|].
  simpl. apply IH. by apply accounted_step.
Qed.

(** C1 (amended). [loginSubject.next] is called once for each pending
    mutation whose promise resolves, which takes that mutation out of
    the pending ones, and by no other event: resolving a pending
    mutation always appends its data to the publications, and an event
    that changes the publications is such a resolution.  Every request
    sent is so either pending, published or logged as an error, and the
    publications never outnumber the requests.  Nothing limits them to
    one: whenever two mutations are pending and both resolve, both are
    published. *)
Theorem publish_once_per_accepted_response mfa events :
  let st := run (mount mfa) events in
  (length (published st) + size (pending st) + length (console st)
     = length (requests st)) ∧
  length (published st) ≤ length (requests st) ∧
  (∀ e, (published (step st e) = published st) ∨
        (∃ id data, e = Resolve id data ∧ id ∈ pending st ∧
                    (id ∉ pending (step st e)) ∧
                    published (step st e) = published st ++ [data])) ∧
  (∀ id data, id ∈ pending st →
     published (step st (Resolve id data)) = published st ++ [data] ∧
     id ∉ pending (step st (Resolve id data))) ∧
  (∀ id1 id2 data1 data2,
     id1 ∈ pending st → id2 ∈ pending st → id1 ≠ id2 →
     published (run st [Resolve id1 data1; Resolve id2 data2])
       = published st ++ [data1; data2]).
Proof.
  intros st. pose proof (accounted_run events _ (accounted_mount mfa)) as Hacc.
  fold st in Hacc. destruct Hacc as [Hsum _].
  assert (∀ (s : State) id data, id ∈ pending s →
            step s (Resolve id data) = onSuccess data (settle id s))
    as Hresolve.
  { intros s id data Hin. simpl. by rewrite bool_decide_eq_true_2. }
  split; [done|]. split; [lia|]. split_and!.
  - intros [text| | |id data|id err]; simpl.
    + left. by destruct (mounted st).
    + left. by destruct (mounted st).
    + left. destruct (mounted st); [|done]. unfold handleSubmit.
      by destruct (zodSchema _ _).
    + case_bool_decide as Hin; [right|by left].
      exists id, data. split_and!; [done|done| |done]. simpl.
      rewrite elem_of_difference, elem_of_singleton. tauto.
    + left. by case_bool_decide.
  - intros id data Hin. rewrite Hresolve by done. simpl. split; [done|].
    rewrite elem_of_difference, elem_of_singleton. tauto.
  - intros id1 id2 data1 data2 Hin1 Hin2 Hne.
    change (run st [Resolve id1 data1; Resolve id2 data2])
      with (step (step st (Resolve id1 data1)) (Resolve id2 data2)).
    rewrite (Hresolve st) by done. rewrite Hresolve.
    + simpl. by rewrite <- app_assoc.
    + simpl. rewrite elem_of_difference, elem_of_singleton. split; [done|].
      congruence.
Qed.

(** *** The mount effect *)

Lemma off_screen_step st e :
  mounted st = false -> pending st = ∅ -> step st e = st.
Proof.
  intros Hm Hp. destruct e; simpl; rewrite ?Hm, ?Hp; done.
Qed.

Lemma off_screen_run events st :
  mounted st = false -> pending st = ∅ -> run st events = st.
Proof.
  intros Hm Hp. induction events as [|e events IH]; [done|].
  simpl. by rewrite off_screen_step.
Qed.

(** C3. When the page is reached with no second factor available, the
    mount effect navigates to the parent route at once, and whatever
    happens afterwards no request is ever sent for this attempt: no
    mutation is pending and [isPending] stays false. *)
Theorem no_factor_reroutes_without_challenge mfa events :
  totp_available mfa = false ->
  webauthn_available mfa = false ->
  email_available mfa = false ->
  let st := run (mount mfa) events in
  navigated (mount mfa) = ["../"] ∧
  navigated st = ["../"] ∧
  requests st = [] ∧
  pending st = ∅ ∧
  isPending st = false ∧
  published st = [].
Proof.
  intros Ht Hw He st.
  assert (st = mount mfa) as ->.
  { unfold st. apply off_screen_run; unfold mount; simpl;
      by rewrite ?Ht, ?Hw, ?He. }
  unfold mount, isPending; simpl. by rewrite Ht, Hw, He.
Qed.

(** *** What a rejection leaves behind *)

(** C4. When the endpoint rejects a pending mutation, the field [code]
    afterwards holds the empty string, as value and as default, and
    carries the invalid-code message of the locale, which is not empty
    when the locale's entry is not. *)
Theorem rejection_clears_value_and_keeps_error st id err :
  id ∈ pending st ->
  invalidCode LL ≠ "" ->
  let st' := step st (Reject id err) in
  values_code (form st') = "" ∧
  defaultValues_code (form st') = "" ∧
  errors_code (form st') = Some (invalidCode LL) ∧
  (∃ message, errors_code (form st') = Some message ∧ message ≠ "") ∧
  published st' = published st.
Proof.
  intros Hin Hmsg. simpl. rewrite bool_decide_eq_true_2 by done. simpl.
  repeat split; try done. by exists (invalidCode LL).
Qed.

(** *** Validation before the request *)

(** C5. Submitting with the field [code] empty leaves the required
    message on the field and sends nothing: no request is added and no
    mutation starts.  Conversely an event adds a request only if it is
    a submit with a non-empty field. *)
Theorem empty_code_fails_validation_without_request :
  (∀ st, mounted st = true → values_code (form st) = "" →
     let st' := step st Submit in
     errors_code (form st') = Some (required LL) ∧
     requests st' = requests st ∧
     pending st' = pending st ∧
     published st' = published st) ∧
  (∀ st e, requests (step st e) ≠ requests st →
     e = Submit ∧ mounted st = true ∧ values_code (form st) ≠ "" ∧
     requests (step st e)
       = requests st ++ [trimObjectStrings {| code := values_code (form st) |}]).
Proof.
  split.
  - intros st Hm Hv. simpl. rewrite Hm. unfold handleSubmit.
    rewrite Hv, zodSchema_empty. done.
  - intros st e Hreq. destruct e as [text| | |id data|id err]; simpl in Hreq.
    + by destruct (mounted st).
    + by destruct (mounted st).
    + simpl. destruct (mounted st); [|done]. unfold handleSubmit in *.
      destruct (values_code (form st)) as [|a rest] eqn:Hv.
      * by rewrite zodSchema_empty in Hreq.
      * rewrite zodSchema_valid by (simpl; lia). done.
    + by case_bool_decide.
    + by case_bool_decide.
Qed.

(** *** Submitting *)

Lemma submit_valid st :
  mounted st = true ->
  1 ≤ String.length (values_code (form st)) ->
  step st Submit =
    mutate (trimObjectStrings {| code := values_code (form st) |})
      (with_form (clearErrors (form st)) st).
Proof.
  intros Hm Hlen. simpl. rewrite Hm. unfold handleSubmit.
  by rewrite zodSchema_valid.
Qed.

Lemma isPending_mutate variables st : isPending (mutate variables st) = true.
Proof.
  unfold isPending; simpl. rewrite length_app, Nat.add_1_r.
  apply bool_decide_eq_true_2. apply elem_of_union_l.
  by apply elem_of_singleton.
Qed.

(** C8 (amended). The page exposes whether the mutation started last
    is still pending ([isPending], shown by the submit button), but the
    submit handler does not look at it: a submit with a non-empty code
    while a round trip is in flight is not refused, it sends a second
    request and a second mutation is pending next to the first. *)
Theorem submit_while_pending_starts_another mfa events :
  let st := run (mount mfa) events in
  mounted st = true ->
  isPending st = true ->
  1 ≤ String.length (values_code (form st)) ->
  let st' := step st Submit in
  requests st'
    = requests st ++ [trimObjectStrings {| code := values_code (form st) |}] ∧
  pending st' = {[ length (requests st) ]} ∪ pending st ∧
  size (pending st') = S (size (pending st)) ∧
  2 ≤ size (pending st') ∧
  isPending st' = true ∧
  errors_code (form st') = None.
Proof.
  intros st Hm Hp Hlen st'.
  pose proof (accounted_run events _ (accounted_mount mfa)) as [_ Hbound].
  fold st in Hbound.
  assert (size (pending st') = S (size (pending st))) as Hsize.
  { unfold st'. rewrite submit_valid by done. simpl.
    rewrite size_union, size_singleton; [done|].
    apply disjoint_singleton_l. intros Hin. apply Hbound in Hin. lia. }
  assert (size (pending st) ≠ 0) as Hone.
  { unfold isPending in Hp. destruct (length (requests st)); [done|].
    apply bool_decide_eq_true_1 in Hp. intros Hzero.
    apply size_empty_inv in Hzero. apply (Hzero n) in Hp.
    by apply not_elem_of_empty in Hp. }
  split_and!; try done; try lia; unfold st'; rewrite submit_valid by done;
    try done.
  apply isPending_mutate.
Qed.

(** *** Repeated rejections *)

Lemma rejected_round_spec st text err :
  mounted st = true ->
  1 ≤ String.length text ->
  let st' := rejected_round text err st in
  values_code (form st') = "" ∧
  errors_code (form st') = Some (invalidCode LL) ∧
  requests st' = requests st ++ [trimObjectStrings {| code := text |}] ∧
  isPending st' = false ∧
  published st' = published st ∧
  console st' = console st ++ [err] ∧
  mounted st' = true.
Proof.
  intros Hm Hlen. unfold rejected_round.
  change (run st [Change text; Submit; Reject (length (requests st)) err])
    with (step (step (step st (Change text)) Submit)
            (Reject (length (requests st)) err)).
  assert (step st (Change text) = with_form (onChange LL text (form st)) st)
    as -> by (simpl; by rewrite Hm).
  rewrite submit_valid by done.
  cbn [step mutate with_form pending requests].
  rewrite bool_decide_eq_true_2
    by (apply elem_of_union_l; by apply elem_of_singleton).
  split_and!; try done.
  unfold isPending; simpl. rewrite length_app, Nat.add_1_r.
  apply bool_decide_eq_false_2.
  rewrite elem_of_difference, elem_of_singleton. tauto.
Qed.

(** C6 (amended). The page counts no attempts and has no locked-out
    state.  After any number of consecutive rejections the field is
    empty with the invalid-code message, no round trip is in flight,
    every one of the codes was sent to the endpoint, and the next
    non-empty code is sent as well. *)
Theorem rejections_never_lock_out st text err n :
  mounted st = true ->
  1 ≤ String.length text ->
  let st' := Nat.iter (S n) (rejected_round text err) st in
  values_code (form st') = "" ∧
  errors_code (form st') = Some (invalidCode LL) ∧
  isPending st' = false ∧
  mounted st' = true ∧
  length (requests st') = length (requests st) + S n ∧
  published st' = published st ∧
  requests (run st' [Change text; Submit])
    = requests st' ++ [trimObjectStrings {| code := text |}].
Proof.
  intros Hm Hlen.
  assert (∀ k, let s := Nat.iter k (rejected_round text err) st in
               mounted s = true ∧
               length (requests s) = length (requests st) + k ∧
               published s = published st) as Hiter.
  { induction k as [|k (Hmk & Hrk & Hpk)]; simpl; [split_and!; [done|lia|done]|].
    destruct (rejected_round_spec _ text err Hmk Hlen)
      as (_ & _ & Hr & _ & Hp & _ & Hm').
    split_and!; [done| |congruence].
    rewrite Hr, length_app; simpl. lia. }
  intros st'. destruct (Hiter n) as (Hmn & Hrn & Hpn).
  destruct (Hiter (S n)) as (Hms & Hrs & Hps). fold st' in Hms, Hrs, Hps.
  destruct (rejected_round_spec _ text err Hmn Hlen)
    as (Hv & He & _ & Hpend & _ & _ & _).
  change (rejected_round text err (Nat.iter n (rejected_round text err) st))
    with st' in Hv, He, Hpend.
  split_and!; try done.
  change (run st' [Change text; Submit])
    with (step (step st' (Change text)) Submit).
  assert (step st' (Change text) = with_form (onChange LL text (form st')) st')
    as -> by (simpl; by rewrite Hms).
  by rewrite submit_valid.
Qed.

End MFARecoveryFacts.

(** * The page with the verifier: replayed recovery codes *)

Section LoginFacts.

Import MFARecovery RecoveryVerifier Login.

Context {Session : Type}.
Variable LL : Locale.
Variable trimObjectStrings : RecoveryLoginRequest -> RecoveryLoginRequest.
Variable session_of : string -> Session.

#[local] Abbreviation System := (System Session).
#[local] Abbreviation submit_code :=
  (submit_code LL trimObjectStrings session_of).
#[local] Abbreviation sent text := (code (trimObjectStrings {| code := text |})).

Implicit Types (sys : System) (text : string).

(** What [submit_code] comes to when the page is on screen and the
    text passes the validation: the request reaches the verifier and
    the verdict settles the mutation just started. *)
Lemma submit_code_valid sys text :
  mounted (page sys) = true ->
  1 ≤ String.length text ->
  let id := length (requests (page sys)) in
  let sending :=
    mutate (trimObjectStrings {| code := text |})
      (with_form (clearErrors (onChange LL text (form (page sys))))
         (page sys)) in
  submit_code text sys =
    match verifyRecovery session_of (sent text) (codes sys) with
    | (Accepted session, codes') =>
        {| page := onSuccess session (settle id sending); codes := codes' |}
    | (Refused refusal, codes') =>
        {| page := onError LL refusal (settle id sending); codes := codes' |}
    end.
Proof.
  intros Hm Hlen id sending. unfold Login.submit_code.
  change (run LL trimObjectStrings (page sys) [Change text; Submit])
    with (step LL trimObjectStrings
            (step LL trimObjectStrings (page sys) (Change text)) Submit).
  assert (step LL trimObjectStrings (page sys) (Change text)
          = with_form (onChange LL text (form (page sys))) (page sys))
    as -> by (simpl; by rewrite Hm).
  assert (step LL trimObjectStrings
            (with_form (onChange LL text (form (page sys))) (page sys)) Submit
          = sending) as -> by (by rewrite submit_valid).
  assert ((length (requests (page sys)) <? length (requests sending)) = true)
    as ->.
  { apply Nat.ltb_lt. unfold sending; simpl. rewrite length_app; simpl. lia. }
  unfold respond. cbn [page codes].
  assert (requests sending !! length (requests (page sys))
          = Some (trimObjectStrings {| code := text |})) as ->.
  { unfold sending; simpl. by rewrite list_lookup_middle. }
  assert (id ∈ pending sending) as Hin.
  { unfold sending; simpl. apply elem_of_union_l. by apply elem_of_singleton. }
  destruct (verifyRecovery _ _ _) as [[session|refusal] codes'];
    cbn [step]; fold id; by rewrite bool_decide_eq_true_2.
Qed.

(** A code that is still unused is accepted once: the session is
    published and the code is consumed. *)
Lemma unused_code_is_accepted sys text :
  mounted (page sys) = true ->
  1 ≤ String.length text ->
  sent text ∈ unused (codes sys) ->
  sent text ∉ consumed (codes sys) ->
  let sys' := submit_code text sys in
  published (page sys')
    = published (page sys) ++ [session_of (sent text)] ∧
  sent text ∈ consumed (codes sys') ∧
  mounted (page sys') = true.
Proof.
  intros Hm Hlen Hu Hc. simpl. rewrite submit_code_valid by done.
  unfold verifyRecovery. rewrite decide_False, decide_True by done.
  simpl. split_and!; [done| |done].
  apply elem_of_union_l. by apply elem_of_singleton.
Qed.

Lemma consumed_code_is_refused sys text :
  mounted (page sys) = true ->
  1 ≤ String.length text ->
  sent text ∈ consumed (codes sys) ->
  let sys' := submit_code text sys in
  published (page sys') = published (page sys) ∧
  codes sys' = codes sys ∧
  mounted (page sys') = true ∧
  shown_reason sys' = Some (invalidCode LL) ∧
  values_code (form (page sys')) = "" ∧
  console (page sys') = console (page sys) ++ [Rejected AlreadyUsed].
Proof.
  intros Hm Hlen Hc. simpl. rewrite submit_code_valid by done.
  unfold verifyRecovery. rewrite decide_True by done. done.
Qed.

(** C2 (amended). Once a recovery code is consumed, every further
    submission of it, however often it is repeated, is refused by the
    verifier as already used and never publishes a session; the page
    shows the failure with the field emptied and the same invalid-code
    message it shows for any other rejection, and the verifier's reason
    only goes to the console. *)
Theorem replayed_code_always_fails sys text n :
  mounted (page sys) = true ->
  1 ≤ String.length text ->
  sent text ∈ consumed (codes sys) ->
  let sys' := Nat.iter (S n) (submit_code text) sys in
  published (page sys') = published (page sys) ∧
  codes sys' = codes sys ∧
  shown_reason sys' = Some (invalidCode LL) ∧
  values_code (form (page sys')) = "" ∧
  last (console (page sys')) = Some (Rejected AlreadyUsed).
Proof.
  intros Hm Hlen Hc.
  assert (∀ k, let s := Nat.iter k (submit_code text) sys in
               mounted (page s) = true ∧ codes s = codes sys ∧
               published (page s) = published (page sys)) as Hiter.
  { induction k as [|k (Hmk & Hck & Hpk)]; [done|]. simpl.
    destruct (consumed_code_is_refused _ text Hmk Hlen)
      as (Hp & Hcs & Hm' & _); [by rewrite Hck|].
    split_and!; congruence. }
  intros sys'. destruct (Hiter n) as (Hmn & Hcn & Hpn).
  destruct (consumed_code_is_refused _ text Hmn Hlen)
    as (Hp & Hcs & _ & Hshown & Hvalue & Hconsole); [by rewrite Hcn|].
  change (submit_code text (Nat.iter n (submit_code text) sys))
    with sys' in Hp, Hcs, Hshown, Hvalue, Hconsole.
  split_and!; try congruence.
  rewrite Hconsole. apply last_snoc.
Qed.

End LoginFacts.

(** * Worked cases *)

Section Cases.

Import MFARecovery.

(** The endpoint accepts two requests of one attempt, sent one after
    the other before any answer has arrived, or the second after the
    first was answered: either way the attempt publishes twice. *)
Lemma two_accepted_responses_publish_twice :
  let overlapping :=
    Sample.run Sample.start
      [Change "RC-1"; Submit; Change "RC-2"; Submit;
       Resolve 0 "session one"; Resolve 1 "session two"] in
  let in_turn :=
    Sample.run Sample.start
      [Change "RC-1"; Submit; Resolve 0 "session one";
       Change "RC-2"; Submit; Resolve 1 "session two"] in
  published overlapping = ["session one"; "session two"] ∧
  published in_turn = ["session one"; "session two"] ∧
  ¬ (length (published overlapping) ≤ 1) ∧
  ¬ (length (published in_turn) ≤ 1).
Proof. split_and!; [reflexivity..|vm_compute; lia|vm_compute; lia]. Qed.

(** A submit while the first round trip is in flight is sent as well. *)
Lemma second_submit_in_flight_is_sent :
  let st := Sample.run Sample.start [Change "RC-1"; Submit] in
  isPending st = true ∧
  requests (Sample.step st Submit)
    = [{| code := "RC-1" |}; {| code := "RC-1" |}] ∧
  errors_code (form (Sample.step st Submit)) = None ∧
  ¬ (size (pending (Sample.step st Submit)) ≤ 1).
Proof. split_and!; [reflexivity..|vm_compute; lia]. Qed.

(** Five rejections in a row leave the page as one rejection does, and
    the sixth code is sent to the endpoint like the first. *)
Lemma sixth_submission_after_five_rejections :
  let round :=
    rejected_round Sample.LL Sample.trimObjectStrings "000000" "wrong code" in
  let st5 := Nat.iter 5 round Sample.start in
  console st5 = replicate 5 "wrong code" ∧
  form st5 = form (round Sample.start) ∧
  mounted st5 = true ∧
  requests (Sample.run st5 [Change "000000"; Submit])
    = replicate 6 {| code := "000000" |} ∧
  isPending (Sample.run st5 [Change "000000"; Submit]) = true.
Proof. split_and!; reflexivity. Qed.

(** After [RC-1] has been accepted, the page looks the same whether
    [RC-1] is submitted again or a code that never existed; the
    reasons differ only on the console. *)
Lemma replay_reason_not_distinguishable :
  let used := Sample.submit_code "RC-1" Sample.system in
  let replayed := Sample.submit_code "RC-1" used in
  let unknown := Sample.submit_code "RC-9" used in
  published (Login.page used) = ["session"] ∧
  Login.shown_reason replayed = Login.shown_reason unknown ∧
  last (console (Login.page replayed))
    = Some (RecoveryVerifier.Rejected RecoveryVerifier.AlreadyUsed) ∧
  last (console (Login.page unknown))
    = Some (RecoveryVerifier.Rejected RecoveryVerifier.Invalid) ∧
  ¬ Login.distinguishable replayed unknown.
Proof.
  split_and!; [by vm_compute..|].
  intros Hdiff. apply Hdiff. by vm_compute.
Qed.

(** White space alone passes the validation; with a trimming
    [trimObjectStrings] the request then carries the empty code. *)
Example white_space_is_sent_trimmed :
  requests (Sample.run Sample.start [Change "  "; Submit])
    = [{| code := "" |}].
Proof. reflexivity. Qed.

End Cases.

(** * The theorems at concrete inputs *)

Section Witnesses.

Import MFARecovery.

Lemma replayed_code_always_fails_witness :
  let used := Sample.submit_code "RC-1" Sample.system in
  "RC-1" ∈ RecoveryVerifier.consumed (Login.codes used) ∧
  published (Login.page (Nat.iter 3 (Sample.submit_code "RC-1") used))
    = published (Login.page used).
Proof.
  intros used.
  assert ("RC-1" ∈ RecoveryVerifier.consumed (Login.codes used)) as Hc.
  { apply (bool_decide_unpack _). vm_compute. exact I. }
  split; [exact Hc|].
  destruct (replayed_code_always_fails Sample.LL Sample.trimObjectStrings
              Sample.session_of used "RC-1" 2) as (Hp & _).
  - reflexivity.
  - simpl. lia.
  - exact Hc.
  - exact Hp.
Defined.

Lemma publish_once_per_accepted_response_witness :
  let st := Sample.run (mount Sample.with_totp)
              [Change "RC-1"; Submit; Change "RC-2"; Submit] in
  published st = [] ∧
  published (Sample.run st [Resolve 0 "session one"; Resolve 1 "session two"])
    = ["session one"; "session two"].
Proof.
  intros st. split; [reflexivity|].
  destruct (publish_once_per_accepted_response
              (LoginSubjectData := string) (ApiError := string) Sample.LL
              Sample.trimObjectStrings Sample.with_totp
              [Change "RC-1"; Submit; Change "RC-2"; Submit])
    as (_ & _ & _ & _ & Htwo).
  apply (Htwo 0 1 "session one" "session two").
  - apply (bool_decide_unpack _). vm_compute. exact I.
  - apply (bool_decide_unpack _). vm_compute. exact I.
  - discriminate.
Defined.

Lemma no_factor_reroutes_without_challenge_witness :
  requests (Sample.run (mount Sample.no_factor) [Change "123456"; Submit])
    = [].
Proof.
  destruct (no_factor_reroutes_without_challenge
              (LoginSubjectData := string) (ApiError := string) Sample.LL
              Sample.trimObjectStrings Sample.no_factor
              [Change "123456"; Submit]) as (_ & _ & Hr & _);
    [reflexivity..|exact Hr].
Defined.

Lemma rejection_clears_value_and_keeps_error_witness :
  let st := Sample.run Sample.start [Change "123456"; Submit] in
  values_code (form st) = "123456" ∧
  values_code (form (Sample.step st (Reject 0 "wrong code"))) = "".
Proof.
  intros st. split; [reflexivity|].
  destruct (rejection_clears_value_and_keeps_error Sample.LL
              Sample.trimObjectStrings st 0 "wrong code") as (Hv & _).
  - apply (bool_decide_unpack _). vm_compute. exact I.
  - discriminate.
  - exact Hv.
Defined.

Lemma empty_code_fails_validation_without_request_witness :
  requests (Sample.step Sample.start Submit) = [] ∧
  errors_code (form (Sample.step Sample.start Submit))
    = Some "Field is required".
Proof.
  destruct (proj1 (empty_code_fails_validation_without_request Sample.LL
                     Sample.trimObjectStrings)
              Sample.start) as (He & Hr & _);
    [reflexivity..|].
  split; [exact Hr | exact He].
Defined.

Lemma rejections_never_lock_out_witness :
  isPending
    (Nat.iter 5
       (rejected_round Sample.LL Sample.trimObjectStrings "000000"
          "wrong code") Sample.start) = false.
Proof.
  destruct (rejections_never_lock_out Sample.LL Sample.trimObjectStrings
              Sample.start "000000" "wrong code" 4) as (_ & _ & Hp & _).
  - reflexivity.
  - simpl. lia.
  - exact Hp.
Defined.

Lemma submit_while_pending_starts_another_witness :
  let st := Sample.run (mount Sample.with_totp) [Change "RC-1"; Submit] in
  isPending st = true ∧ 2 ≤ size (pending (Sample.step st Submit)).
Proof.
  intros st. split; [reflexivity|].
  destruct (submit_while_pending_starts_another
              (LoginSubjectData := string) (ApiError := string) Sample.LL
              Sample.trimObjectStrings Sample.with_totp
              [Change "RC-1"; Submit]) as (_ & _ & _ & Htwo & _).
  - reflexivity.
  - reflexivity.
  - simpl. lia.
  - exact Htwo.
Defined.

Lemma resetState_frame_witness :
  7 ∈ AuthStore.observers Sample.page ∧
  (7, "session") ∈ AuthStore.next (AuthStore.resetState Sample.page) "session".
Proof.
  assert (7 ∈ AuthStore.observers Sample.page) as Hobs.
  { vm_compute. apply list_elem_of_here. }
  split; [exact Hobs|].
  destruct (resetState_frame Sample.page) as (_ & _ & _ & _ & _ & Hnext).
  exact (Hnext string 7 "session" Hobs).
Defined.

Lemma persist_only_user_and_authLocation_witness :
  let pg := AuthSession.session
              [AuthSession.SetState
                 (<["user" := AuthStore.VUser "admin"]>
                  (<["openIdParams" :=
                       AuthStore.VParams [("client_id", "app")]]> ∅));
               AuthSession.Subscribe 7] in
  AuthStore.state pg !! "openIdParams"
    = Some (AuthStore.VParams [("client_id", "app")]) ∧
  AuthStore.state (AuthStore.reload pg) !! "user"
    = Some (AuthStore.VUser "admin").
Proof.
  intros pg. split; [reflexivity|].
  destruct (persist_only_user_and_authLocation
              [AuthSession.SetState
                 (<["user" := AuthStore.VUser "admin"]>
                  (<["openIdParams" :=
                       AuthStore.VParams [("client_id", "app")]]> ∅));
               AuthSession.Subscribe 7])
    as (_ & _ & _ & _ & _ & Huser).
  apply Huser. reflexivity.
Defined.

End Witnesses.

(** * More on the auth store *)

Section AuthStoreActions.

Import AuthStore.

Context {User : Type}.

Implicit Types (pg : Page User) (o : gmap string (Value User)).

Lemma state_setState o pg : state (setState o pg) = spread (state pg) o.
Proof.
  unfold setState, set; simpl. apply map_eq; intros k.
  rewrite !lookup_spread. by destruct (o !! k), (state pg !! k).
Qed.

Lemma page_eq pg1 pg2 :
  state pg1 = state pg2 ->
  subjects pg1 = subjects pg2 ->
  sessionStorage pg1 = sessionStorage pg2 ->
  pg1 = pg2.
Proof. destruct pg1, pg2; simpl; by intros -> -> ->. Qed.

Lemma setState_written o pg :
  sessionStorage (setState o pg)
    = Some (json_roundtrip (partialize (state (setState o pg)))).
Proof. reflexivity. Qed.

(** X1. [setState] is a merge: a key of the argument takes the argument's
    value, every other key keeps its own, so that a call with an
    argument without keys leaves the state as it is.  The subjects in
    memory are not touched and the storage is rewritten from the
    merged state. *)
Theorem setState_merges o pg :
  (∀ k : string,
     state (setState o pg) !! k
       = match o !! k with Some v => Some v | None => state pg !! k end) ∧
  (o = ∅ → state (setState o pg) = state pg) ∧
  subjects (setState o pg) = subjects pg ∧
  sessionStorage (setState o pg)
    = Some (json_roundtrip (partialize (state (setState o pg)))).
Proof.
  split_and!; [|intros ->|done|done].
  - intros k. by rewrite state_setState, lookup_spread.
  - rewrite state_setState. apply map_eq; intros k.
    by rewrite lookup_spread, lookup_empty.
Qed.

(** X2. Two calls of [setState] in a row come to one call with the second
    argument spread over the first; in particular repeating a call
    changes nothing. *)
Theorem setState_twice o1 o2 pg :
  setState o2 (setState o1 pg) = setState (spread o1 o2) pg ∧
  setState o1 (setState o1 pg) = setState o1 pg.
Proof.
  assert (∀ a b, state (setState b (setState a pg))
                 = state (setState (spread a b) pg)) as Hstate.
  { intros a b. rewrite !state_setState. apply map_eq; intros k.
    rewrite !lookup_spread. by destruct (b !! k). }
  assert (∀ a b, setState b (setState a pg) = setState (spread a b) pg)
    as Htwice.
  { intros a b. apply page_eq; [apply Hstate|done|].
    by rewrite !setState_written, Hstate. }
  split; [apply Htwice|].
  rewrite Htwice. f_equal. apply map_eq; intros k.
  rewrite lookup_spread. by destruct (o1 !! k).
Qed.

Lemma state_resetState pg (k : string) :
  state (resetState pg) !! k
    = if decide (k = "user" ∨ k = "openIdParams") then Some VUndefined
      else state pg !! k.
Proof.
  unfold resetState, set; simpl. rewrite lookup_spread.
  destruct (decide (k = "user")) as [->|Hu].
  { rewrite lookup_insert_eq. by rewrite decide_True by tauto. }
  rewrite lookup_insert_ne by done.
  destruct (decide (k = "openIdParams")) as [->|Ho].
  { rewrite lookup_insert_eq. by rewrite decide_True by tauto. }
  rewrite lookup_insert_ne, lookup_empty by done.
  by rewrite decide_False by tauto.
Qed.

Lemma resetState_determined pg1 pg2 :
  (∀ k : string, k ≠ "user" → k ≠ "openIdParams" →
     state pg1 !! k = state pg2 !! k) ->
  subjects pg1 = subjects pg2 ->
  resetState pg1 = resetState pg2.
Proof.
  intros Hstate Hsubjects.
  assert (state (resetState pg1) = state (resetState pg2)) as Heq.
  { apply map_eq; intros k. rewrite !state_resetState.
    case_decide as Hk; [done|]. apply Hstate; tauto. }
  apply page_eq; [done|done|].
  change (Some (json_roundtrip (partialize (state (resetState pg1))))
          = Some (json_roundtrip (partialize (state (resetState pg2))))).
  by rewrite Heq.
Qed.

(** X3. [resetState] undoes a login: after a [setState] that sets nothing
    but [user] and [openIdParams], it leads to the very page a reset
    without that [setState] leads to; and a second reset changes
    nothing. *)
Theorem resetState_undoes_login o pg :
  dom o ⊆ {[ "user"; "openIdParams" ]} ->
  resetState (setState o pg) = resetState pg ∧
  resetState (resetState pg) = resetState pg.
Proof.
  intros Hdom. split.
  - apply resetState_determined; [|done].
    intros k Hu Ho. rewrite state_setState, lookup_spread.
    destruct (o !! k) as [v|] eqn:Hk; [|done].
    assert (k ∈ dom o) as Hin by (apply elem_of_dom; eauto).
    apply Hdom in Hin. apply elem_of_union in Hin as [Hin|Hin];
      apply elem_of_singleton in Hin; done.
  - apply resetState_determined; [|done].
    intros k Hu Ho. rewrite state_resetState. by rewrite decide_False by tauto.
Qed.

(** X4. A reset is persistent: it removes the user from the storage, so
    that after a reload the user is still [undefined]; the
    [authLocation] field is not reset and comes back from the storage
    as far as JSON keeps it. *)
Theorem resetState_survives_reload pg :
  (∃ stored, sessionStorage (resetState pg) = Some stored ∧
             stored !! "user" = None ∧
             stored !! "authLocation"
               = state pg !! "authLocation" ≫= json_value) ∧
  state (reload (resetState pg)) !! "user" = Some VUndefined ∧
  state (reload (resetState pg)) !! "openIdParams" = Some VUndefined ∧
  state (reload (resetState pg)) !! "authLocation"
    = state pg !! "authLocation" ≫= json_value.
Proof.
  assert (json_roundtrip (partialize (state (resetState pg))) !! "user"
          = None) as Huser.
  { rewrite lookup_persisted, state_resetState.
    rewrite decide_True by (rewrite !elem_of_cons; tauto).
    by rewrite decide_True by tauto. }
  assert (json_roundtrip (partialize (state (resetState pg)))
            !! "authLocation"
          = state pg !! "authLocation" ≫= json_value) as Hloc.
  { rewrite lookup_persisted, state_resetState.
    rewrite decide_True by (rewrite !elem_of_cons; tauto).
    rewrite decide_False; [done|]. intros [?|?]; done. }
  assert (json_roundtrip (partialize (state (resetState pg)))
            !! "openIdParams" = None) as Hopen.
  { rewrite lookup_persisted. rewrite decide_False; [done|].
    rewrite !elem_of_cons, elem_of_nil. intros [?|[?|[]]]; done. }
  assert (state (reload (resetState pg))
          = spread (initial 0)
              (json_roundtrip (partialize (state (resetState pg)))))
    as -> by reflexivity.
  split_and!.
  - eexists. split; [reflexivity|]. by split.
  - by rewrite lookup_spread, Huser.
  - by rewrite lookup_spread, Hopen.
  - rewrite lookup_spread, Hloc.
    by destruct (state pg !! "authLocation" ≫= json_value).
Qed.

End AuthStoreActions.

(** * More on the recovery-code page *)

Section MFARecoveryRuns.

Import MFARecovery.

Context {LoginSubjectData ApiError : Type}.
Variable LL : Locale.
Variable trimObjectStrings : RecoveryLoginRequest -> RecoveryLoginRequest.

#[local] Abbreviation State := (State LoginSubjectData ApiError).
#[local] Abbreviation Event := (Event LoginSubjectData ApiError).
#[local] Abbreviation mount := (@mount LoginSubjectData ApiError).
#[local] Abbreviation step := (step LL trimObjectStrings).
#[local] Abbreviation run := (run LL trimObjectStrings).

Implicit Types (st : State) (e : Event) (events : list Event).

(** A property of the page that holds when it is mounted and that no
    event breaks holds after every run. *)
Lemma run_invariant (P : State -> Prop) mfa events :
  P (mount mfa) ->
  (∀ st e, P st → P (step st e)) ->
  P (run (mount mfa) events).
Proof.
  intros Hstart Hstep. unfold MFARecovery.run.
  generalize dependent (mount mfa).
  induction events as [|e events IH]; intros st Hst; [done|].
  simpl. apply IH. by apply Hstep.
Qed.

Lemma step_cases (P : State -> Prop) st e :
  P st ->
  (∀ text, mounted st = true → P (with_form (onChange LL text (form st)) st)) ->
  (mounted st = true → P (with_form (onBlur LL (form st)) st)) ->
  (mounted st = true → P (handleSubmit LL trimObjectStrings st)) ->
  (∀ id data, id ∈ pending st → P (onSuccess data (settle id st))) ->
  (∀ id err, id ∈ pending st → P (onError LL err (settle id st))) ->
  P (step st e).
Proof.
  intros Hst Hchange Hblur Hsubmit Hresolve Hreject.
  destruct e as [text| | |id data|id err]; simpl.
  - destruct (mounted st) eqn:Hm; auto.
  - destruct (mounted st) eqn:Hm; auto.
  - destruct (mounted st) eqn:Hm; auto.
  - case_bool_decide; auto.
  - case_bool_decide; auto.
Qed.

(** X5. The page calls [navigate] in its mount effect and nowhere
    else: whatever happens later, its navigations are the one to the
    parent route if no second factor was available at the mount, and
    none if one was. *)
Theorem navigates_only_on_mount mfa events :
  navigated (run (mount mfa) events)
    = if totp_available mfa || webauthn_available mfa || email_available mfa
      then [] else ["../"].
Proof.
  apply (run_invariant
           (fun st => navigated st
              = if totp_available mfa || webauthn_available mfa
                   || email_available mfa
                then [] else ["../"])).
  - unfold MFARecovery.mount; simpl.
    by destruct (totp_available mfa), (webauthn_available mfa),
                (email_available mfa).
  - intros st e Hst. apply step_cases; try done.
    intros _. unfold MFARecovery.handleSubmit.
    by destruct (zodSchema _ _).
Qed.

(** X6. Every request the page has ever sent carries what
    [trimObjectStrings] makes of a code that was not empty when it was
    submitted. *)
Theorem requests_carry_validated_codes mfa events request :
  request ∈ requests (run (mount mfa) events) ->
  ∃ text, 1 ≤ String.length text ∧
          request = trimObjectStrings {| code := text |}.
Proof.
  revert request.
  apply (run_invariant
           (fun st => ∀ request, request ∈ requests st →
              ∃ text, 1 ≤ String.length text ∧
                      request = trimObjectStrings {| code := text |})).
  - intros request Hin. by apply elem_of_nil in Hin.
  - intros st e Hst. apply step_cases; try done.
    intros _. unfold MFARecovery.handleSubmit, zodSchema. cbn [code].
    destruct (Nat.leb_spec 1 (String.length (values_code (form st))))
      as [Hlen|Hlen]; [|done].
    intros request Hin. cbn in Hin.
    apply elem_of_app in Hin as [Hin|Hin]; [by apply Hst|].
    apply list_elem_of_singleton in Hin as ->. eauto.
Qed.

(** X7. What the field can look like after any run: its default is the
    empty string, and it shows no message, or the required message on
    an empty field, or the invalid-code message on an empty field after
    at least one rejection was logged. *)
Theorem field_shows_only_its_two_messages mfa events :
  let st := run (mount mfa) events in
  defaultValues_code (form st) = "" ∧
  (errors_code (form st) = None ∨
   (errors_code (form st) = Some (required LL) ∧ values_code (form st) = "") ∨
   (errors_code (form st) = Some (invalidCode LL) ∧
    values_code (form st) = "" ∧ console st ≠ [])).
Proof.
  assert (∀ text, zodSchema LL {| code := text |} = None
                  ∨ (zodSchema LL {| code := text |} = Some (required LL)
                     ∧ text = "")) as Hzod.
  { intros [|a text]; [right|left]; done. }
  apply (run_invariant
           (fun st => defaultValues_code (form st) = "" ∧
              (errors_code (form st) = None ∨
               (errors_code (form st) = Some (required LL)
                ∧ values_code (form st) = "") ∨
               (errors_code (form st) = Some (invalidCode LL) ∧
                values_code (form st) = "" ∧ console st ≠ [])))).
  - split; [done|by left].
  - intros st e [Hdefault Hshown]. apply step_cases; try done.
    + intros text _. split; [done|]. simpl.
      destruct (Hzod text) as [Hz|[Hz ->]]; rewrite Hz; auto.
    + intros _. split; [done|]. simpl.
      destruct (Hzod (values_code (form st))) as [Hz|[Hz Hv]]; rewrite Hz; auto.
    + intros _. unfold MFARecovery.handleSubmit.
      destruct (Hzod (values_code (form st))) as [Hz|[Hz Hv]]; rewrite Hz.
      * split; [done|by left].
      * split; [done|]. right; left. done.
    + intros id err _. split; [done|]. right; right. simpl.
      split_and!; [done|done|]. by destruct (console st).
Qed.

End MFARecoveryRuns.

(** * The devices section *)

Section UserDevicesFacts.

Import UserDevices.

Implicit Types (s : Stores) (p : UserProfile).

Lemma canManageDevices_true s :
  canManageDevices s = true ↔
  is_Some (userProfile s) ∧
  (enterprise_settings s = None ∨
   admin_device_management <$> enterprise_settings s = Some false ∨
   is_admin <$> auth_user s = Some true).
Proof.
  unfold canManageDevices, isAdmin, truthy.
  destruct (userProfile s) as [p|]; simpl.
  - destruct (enterprise_settings s) as [[[|]]|]; simpl.
    + destruct (auth_user s) as [[[|]]|]; simpl; split; try done; eauto.
      * intros [_ [?|[?|?]]]; done.
      * intros [_ [?|[?|?]]]; done.
    + split; eauto.
    + split; eauto.
  - split; [done|]. intros [[? ?] _]. done.
Qed.

(** X8. Who may manage devices: the profile must be loaded, and then
    either the enterprise settings are missing, or they do not reserve
    device management for admins, or the logged-in user is an admin. *)
Theorem canManageDevices_iff s :
  canManageDevices s = true ↔
  is_Some (userProfile s) ∧
  (enterprise_settings s = None ∨
   admin_device_management <$> enterprise_settings s = Some false ∨
   is_admin <$> auth_user s = Some true).
Proof. apply canManageDevices_true. Qed.

Lemma render_cards s :
  shown_cards s = match userProfile s with
                  | Some p => cards s p
                  | None => []
                  end.
Proof.
  unfold shown_cards, render. destruct (userProfile s) as [p|]; [|done].
  unfold cards. destruct (devices p) as [|d rest]; [done|].
  simpl. by rewrite app_nil_r.
Qed.

Lemma render_boxes s :
  shown_boxes s = match userProfile s with
                  | Some _ => [addDevice_disabled s]
                  | None => []
                  end.
Proof.
  unfold shown_boxes, render. destruct (userProfile s) as [p|]; [|done].
  by destruct (devices p).
Qed.

(** X9. What the section shows.  Without a profile: three skeletons, no
    card and no box.  With a profile: no skeleton, one card for each
    device, in the order of the profile and keyed by the device's id,
    and one add-device box, also when the profile has no device. *)
Theorem render_follows_profile s :
  match userProfile s with
  | None => shown_skeletons s = [3] ∧ shown_cards s = [] ∧ shown_boxes s = []
  | Some p =>
      shown_skeletons s = [] ∧
      map device (shown_cards s) = devices p ∧
      map key (shown_cards s) = map device_id (devices p) ∧
      length (shown_boxes s) = 1
  end.
Proof.
  rewrite render_cards, render_boxes. unfold shown_skeletons, render.
  destruct (userProfile s) as [p|]; [|done].
  split_and!; [by destruct (devices p)| | |done].
  - unfold cards. rewrite map_map; simpl. apply map_id.
  - unfold cards. by rewrite map_map.
Qed.

Lemma shown_follow_canManageDevices s :
  Forall (fun c => modifiable c = canManageDevices s) (shown_cards s) ∧
  Forall (fun disabled =>
            disabled = false ↔
            canManageDevices s = true ∧
            network_present <$> appInfo s = Some true)
         (shown_boxes s).
Proof.
  rewrite render_cards, render_boxes.
  destruct (userProfile s) as [p|] eqn:Hp; [|by split].
  split.
  - unfold cards. apply Forall_map. by apply Forall_true.
  - apply Forall_singleton. unfold addDevice_disabled, truthy.
    destruct (canManageDevices s), (appInfo s) as [[[|]]|]; simpl;
      split; try done; intros [? ?]; done.
Qed.

(** X10. Every card is modifiable exactly when the user may manage devices,
    and the box is enabled exactly when moreover the application
    reports a network; with the application info missing it is
    disabled. *)
Theorem cards_and_box_follow_canManageDevices s :
  Forall (fun c => modifiable c = canManageDevices s) (shown_cards s) ∧
  Forall (fun disabled =>
            disabled = false ↔
            canManageDevices s = true ∧
            network_present <$> appInfo s = Some true)
         (shown_boxes s).
Proof. apply shown_follow_canManageDevices. Qed.

(** X11. Where device management is reserved for admins, someone who is not
    an admin gets no modifiable card and a disabled box. *)
Theorem reserved_for_admins s settings :
  enterprise_settings s = Some settings ->
  admin_device_management settings = true ->
  is_admin <$> auth_user s ≠ Some true ->
  canManageDevices s = false ∧
  Forall (fun c => modifiable c = false) (shown_cards s) ∧
  Forall (fun disabled => disabled = true) (shown_boxes s).
Proof.
  intros Hs Hadm Hnot.
  assert (canManageDevices s = false) as Hcan.
  { destruct (canManageDevices s) eqn:Hc; [|done].
    apply canManageDevices_true in Hc as [_ [Hn|[Hf|Ha]]].
    - by rewrite Hs in Hn.
    - rewrite Hs in Hf. simpl in Hf. congruence.
    - done. }
  split; [done|].
  destruct (shown_follow_canManageDevices s) as [Hcards Hbox].
  rewrite Hcan in Hcards, Hbox. split; [done|].
  eapply Forall_impl; [exact Hbox|]. simpl.
  intros [|] Hiff; [done|]. by destruct (proj1 Hiff).
Qed.

(** X12. Using the box reserves the names of exactly the devices on the
    cards, in their order, keeps the path the user came from and
    navigates to the add-device page, replacing the history entry. *)
Theorem callback_reserves_shown_devices s p pathname :
  userProfile s = Some p ->
  reservedDevices (callback p pathname).1
    = map (fun c => device_name (device c)) (shown_cards s) ∧
  length (reservedDevices (callback p pathname).1) = length (devices p) ∧
  originRoutePath (callback p pathname).1 = pathname ∧
  (callback p pathname).2 = ("/add-device", true).
Proof.
  intros Hp. rewrite render_cards, Hp. unfold cards; simpl.
  split_and!; [by rewrite map_map|by rewrite length_map|done|done].
Qed.

End UserDevicesFacts.

(** * The network overview page *)

Section OverviewPageFacts.

Import OverviewPage.

Implicit Types (n m : Network) (data : list Network) (w : World).

Lemma elem_of_insert_by_id n m data :
  m ∈ insert_by_id n data ↔ m = n ∨ m ∈ data.
Proof.
  induction data as [|x data IH]; simpl.
  - rewrite list_elem_of_singleton, elem_of_nil. tauto.
  - destruct (network_id n <=? network_id x)%Z.
    + by rewrite elem_of_cons.
    + rewrite !elem_of_cons, IH. tauto.
Qed.

Lemma elem_of_orderBy m data : m ∈ orderBy data ↔ m ∈ data.
Proof.
  induction data as [|x data IH]; [done|].
  change (orderBy (x :: data)) with (insert_by_id x (orderBy data)).
  rewrite elem_of_insert_by_id, elem_of_cons, IH. tauto.
Qed.

Lemma head_insert_by_id n data m :
  head (insert_by_id n data) = Some m ->
  (m = n ∧ ∀ x, head data = Some x → (network_id n ≤ network_id x)%Z) ∨
  (head data = Some m ∧ (network_id m < network_id n)%Z).
Proof.
  destruct data as [|x data]; simpl.
  - intros [= <-]. left. by split.
  - destruct (Z.leb_spec (network_id n) (network_id x)); simpl; intros [= <-].
    + left. split; [done|]. by intros ? [= <-].
    + right. by split.
Qed.

(** The first network of the ordered list is a network of the list and
    no network of the list has a smaller id. *)
Lemma head_orderBy data m :
  head (orderBy data) = Some m ->
  m ∈ data ∧ ∀ x, x ∈ data → (network_id m ≤ network_id x)%Z.
Proof.
  revert m. induction data as [|a data IH]; intros m; [done|].
  change (orderBy (a :: data)) with (insert_by_id a (orderBy data)).
  intros Hhead. apply head_insert_by_id in Hhead as [[-> Hle]|[Hh Hlt]].
  - split; [apply list_elem_of_here|].
    intros x. rewrite elem_of_cons. intros [->|Hx]; [lia|].
    destruct (head (orderBy data)) as [h|] eqn:Hh.
    + destruct (IH h eq_refl) as [_ Hmin].
      specialize (Hle h eq_refl). specialize (Hmin x Hx). lia.
    + apply head_None in Hh. apply elem_of_orderBy in Hx.
      rewrite Hh in Hx. by apply elem_of_nil in Hx.
  - destruct (IH m Hh) as [Hin Hmin]. split.
    + by apply list_elem_of_further.
    + intros x. rewrite elem_of_cons. intros [->|Hx]; [lia|]. by apply Hmin.
Qed.

Lemma head_orderBy_is_Some data :
  data ≠ [] -> is_Some (head (orderBy data)).
Proof.
  intros Hne. destruct (head (orderBy data)) as [m|] eqn:Hh; [eauto|].
  apply head_None in Hh. destruct data as [|a data]; [done|].
  assert (a ∈ orderBy (a :: data)) as Hin
    by (apply elem_of_orderBy, list_elem_of_here).
  rewrite Hh in Hin. by apply elem_of_nil in Hin.
Qed.

Lemma length_zero_decide data :
  bool_decide (length data = 0) = bool_decide (data = []).
Proof.
  destruct data as [|a data].
  - by rewrite !bool_decide_eq_true_2.
  - by rewrite !bool_decide_eq_false_2.
Qed.

(** X13. The effect always ends normally: when it reads the id of the first
    ordered network, the list is not empty. *)
Theorem networksEffect_never_throws selectedNetworkId search data_opt w :
  ∃ w', networksEffect selectedNetworkId search data_opt w = Done w'.
Proof.
  unfold networksEffect. destruct data_opt as [data|]; [|eauto].
  destruct data as [|a data]; [eauto|].
  rewrite bool_decide_eq_false_2 by done.
  destruct (_ || _); [|eauto].
  destruct (head_orderBy_is_Some (a :: data)) as [m ->]; [done|eauto].
Qed.

(** X14. When networks were fetched and the id of the route is not the id
    of one of them (or is not a number), the store receives the
    networks and, as selected id, the smallest id among them. *)
Theorem networksEffect_selects_oldest selectedNetworkId search data w :
  data ≠ [] ->
  includes (map network_id data) selectedNetworkId = false ->
  ∃ w' oldest,
    networksEffect selectedNetworkId search (Some data) w = Done w' ∧
    store_selectedNetworkId w' = Some oldest ∧
    oldest ∈ map network_id data ∧
    (∀ id, id ∈ map network_id data → (oldest ≤ id)%Z) ∧
    store_networks w' = Some data ∧
    wizard_resets w' = wizard_resets w.
Proof.
  intros Hne Hinc. unfold networksEffect.
  rewrite length_zero_decide, bool_decide_eq_false_2 by done.
  rewrite Hinc. cbn [isUndefined_number negb orb andb].
  destruct (head_orderBy_is_Some data Hne) as [m Hm]. rewrite Hm.
  destruct (head_orderBy data m Hm) as [Hin Hmin].
  eexists _, (network_id m). split_and!; try done.
  - apply list_elem_of_fmap. eauto.
  - intros id Hid. apply list_elem_of_fmap in Hid as [x [-> Hx]]. by apply Hmin.
  - by destruct (isNaN selectedNetworkId).
Qed.

(** X15. When the id of the route is the id of one of the fetched networks,
    the effect stores the networks and does nothing else: no
    navigation, no wizard reset, the selected id of the store is left
    alone. *)
Theorem networksEffect_keeps_valid_selection id search data w :
  id ∈ map network_id data ->
  networksEffect (Some id) search (Some data) w = Done (set_networks data w).
Proof.
  intros Hin. unfold networksEffect. cbn [isNaN].
  rewrite length_zero_decide, bool_decide_eq_false_2.
  - cbn [includes isUndefined_number negb orb andb].
    by rewrite bool_decide_eq_true_2.
  - intros ->. by apply elem_of_nil in Hin.
Qed.

(** X16. Where the effect navigates: to the overview without id, keeping
    the query string, when the id of the route is not a number, and
    then to the wizard, after resetting it, when the fetched list is
    empty; never anywhere else, always replacing the history entry.
    Without networks the overview store is not written. *)
Theorem networksEffect_navigations selectedNetworkId search data_opt w w' :
  networksEffect selectedNetworkId search data_opt w = Done w' ->
  navigations w'
    = navigations w
      ++ (if isNaN selectedNetworkId
          then [("/admin/overview/" +:+ search, true)] else [])
      ++ match data_opt with
         | Some [] => [("/admin/wizard", true)]
         | _ => []
         end ∧
  wizard_resets w'
    = wizard_resets w + match data_opt with Some [] => 1 | _ => 0 end ∧
  ((data_opt = None ∨ data_opt = Some []) →
   store_networks w' = store_networks w ∧
   store_selectedNetworkId w' = store_selectedNetworkId w).
Proof.
  unfold networksEffect. destruct data_opt as [[|a data]|].
  - rewrite bool_decide_eq_true_2 by done. intros [= <-].
    destruct (isNaN selectedNetworkId); simpl;
      rewrite ?app_nil_r, <- ?app_assoc, ?Nat.add_1_r; done.
  - rewrite !bool_decide_eq_false_2 by done.
    destruct (_ || _).
    + destruct (head _) as [m|]; [|done]. intros [= <-].
      destruct (isNaN selectedNetworkId); simpl;
        rewrite ?app_nil_r, ?Nat.add_0_r; split_and!; try done;
        intros [?|?]; done.
    + intros [= <-].
      destruct (isNaN selectedNetworkId); simpl;
        rewrite ?app_nil_r, ?Nat.add_0_r; split_and!; try done;
        intros [?|?]; done.
  - intros [= <-].
    destruct (isNaN selectedNetworkId); simpl;
      rewrite ?app_nil_r, ?Nat.add_0_r; done.
Qed.

(** X17. The statistics queries run only with a number as network id: the
    network query is enabled exactly for a number, the users query
    exactly for a number together with a time filter; so the effect's
    redirect for an id that is not a number goes with both queries
    disabled. *)
Theorem stats_queries_need_a_number {Filter : Type}
    (statsFilter : option Filter) (selectedNetworkId : Number) :
  (networkStats_enabled selectedNetworkId = true ↔ is_Some selectedNetworkId) ∧
  (overviewStats_enabled statsFilter selectedNetworkId = true ↔
     is_Some statsFilter ∧ is_Some selectedNetworkId) ∧
  (isNaN selectedNetworkId = true →
     networkStats_enabled selectedNetworkId = false ∧
     overviewStats_enabled statsFilter selectedNetworkId = false).
Proof.
  unfold networkStats_enabled, overviewStats_enabled.
  destruct selectedNetworkId as [z|], statsFilter as [f|]; simpl;
    rewrite ?bool_decide_eq_false_2, ?bool_decide_eq_true_2 by done; simpl;
    split_and!; try done; try (split; eauto; fail);
    try (split; [done|]; intros [[? ?] [? ?]]; done);
    try (split; [done|]; intros [? ?]; done).
Qed.

End OverviewPageFacts.

Section OverviewRenderFacts.

Import OverviewPage.

Context {NetworkStats UserStats DeviceStats : Type}.

#[local] Abbreviation NetworkUsers := (NetworkUsers UserStats DeviceStats).
#[local] Abbreviation RowElement := (RowElement UserStats DeviceStats).
#[local] Abbreviation Element :=
  (Element NetworkStats UserStats DeviceStats).

Implicit Types (users : option NetworkUsers) (row : list RowElement).

(** The bottom row in its three shapes: the loader alone while the
    users statistics load; otherwise "no data" alone when there are no
    statistics or both lists are empty; otherwise the connected users
    if there are any, followed by the connected devices if there are
    any. *)
Lemma bottomRow_shapes (userStatsLoading : bool) users :
  bottomRow userStatsLoading users =
  if userStatsLoading then [StatsLoader 180]
  else match users with
       | None => [NoData]
       | Some u =>
           match user_devices u, network_devices u with
           | [], [] => [NoData]
           | [], _ :: _ => [ConnectedDevices (network_devices u)]
           | _ :: _, [] => [ConnectedUsers (user_devices u)]
           | _ :: _, _ :: _ =>
               [ConnectedUsers (user_devices u);
                ConnectedDevices (network_devices u)]
           end
       end.
Proof.
  unfold bottomRow.
  destruct userStatsLoading, users as [[[|d devices] [|s stats]]|];
    simpl; try done.
Qed.

(** X18. The bottom row is never empty and never mixes its parts: the
    loader is there exactly while the statistics load, and then alone;
    "no data" appears at most once and then alone; a list is shown
    only when loaded, not empty and taken from the statistics. *)
Theorem bottomRow_shows_one_state (userStatsLoading : bool) users :
  let row := bottomRow userStatsLoading users in
  row ≠ [] ∧
  (userStatsLoading = true ↔ row = [StatsLoader 180]) ∧
  (NoData ∈ row → row = [NoData]) ∧
  (∀ stats, ConnectedUsers stats ∈ row →
     userStatsLoading = false ∧ stats ≠ [] ∧
     ∃ u, users = Some u ∧ stats = user_devices u) ∧
  (∀ cards, ConnectedDevices cards ∈ row →
     userStatsLoading = false ∧ cards ≠ [] ∧
     ∃ u, users = Some u ∧ cards = network_devices u).
Proof.
  intros row. unfold row. rewrite bottomRow_shapes.
  destruct userStatsLoading, users as [[devices stats]|]; simpl;
    try destruct stats as [|s stats]; try destruct devices as [|d devices];
    (split_and!;
     [ done
     | split; done
     | rewrite ?elem_of_cons, elem_of_nil; intros H; by destruct_or?
     | intros x; rewrite ?elem_of_cons, elem_of_nil; intros H;
       destruct_or?; simplify_eq; eauto
     | intros x; rewrite ?elem_of_cons, elem_of_nil; intros H;
       destruct_or?; simplify_eq; eauto ]).
Qed.

(** X19. The gateways status is rendered on the desktop breakpoint and only
    there, with the id of the route whatever it is, even when it is
    not a number; the header comes first and the bottom row last. *)
Theorem gateways_status_on_desktop (breakpoint : string)
    (selectedNetworkId : Number) (networkStats : option NetworkStats)
    (userStatsLoading : bool) users :
  let page : list Element :=
    render breakpoint selectedNetworkId networkStats userStatsLoading users in
  (∀ id, NetworkGatewaysStatus id ∈ page ↔
         breakpoint = "desktop" ∧ id = selectedNetworkId) ∧
  head page = Some OverviewHeader ∧
  last page = Some (BottomRow (bottomRow userStatsLoading users)).
Proof.
  intros page. unfold page, render. cbn [isUndefined_number negb].
  rewrite andb_true_r. split_and!.
  - intros id. case_bool_decide as Hb; destruct networkStats as [stats|];
      simpl; rewrite ?elem_of_cons, elem_of_nil; split; intros H;
      destruct_or?; destruct_and?; simplify_eq; eauto.
  - done.
  - rewrite !app_assoc. apply last_snoc.
Qed.

End OverviewRenderFacts.

(** * The activity log types *)

Section ActivityLogFacts.

Import ActivityLog.

(** X20. The list of module values names every module of the type once and
    nothing else. *)
Theorem activityLogModuleValues_enumerates :
  (∀ m, module_literal m ∈ activityLogModuleValues) ∧
  (∀ text, text ∈ activityLogModuleValues → ∃ m, module_literal m = text) ∧
  NoDup activityLogModuleValues ∧
  length activityLogModuleValues = 4.
Proof.
  assert (activityLogModuleValues
          = map module_literal [defguard; client; enrollment; vpn]) as Hall
    by reflexivity.
  split_and!.
  - intros []; apply (bool_decide_unpack _); by vm_compute.
  - intros text. rewrite Hall. intros Hin.
    apply list_elem_of_fmap in Hin as [m [-> _]]. eauto.
  - apply (bool_decide_unpack _). by vm_compute.
  - reflexivity.
Qed.

(** X21. The list of event type values names every event type of the type
    once and nothing else. *)
Theorem activityLogEventTypeValues_enumerates :
  (∀ e, event_literal e ∈ activityLogEventTypeValues) ∧
  (∀ text, text ∈ activityLogEventTypeValues → ∃ e, event_literal e = text) ∧
  NoDup activityLogEventTypeValues ∧
  length activityLogEventTypeValues = 36.
Proof.
  assert (activityLogEventTypeValues
          = map event_literal
              [ user_login; user_login_failed; user_mfa_login;
                user_mfa_login_failed; recovery_code_used; user_logout;
                user_added; user_modified; user_removed; mfa_disabled;
                mfa_totp_enabled; mfa_totp_disabled; mfa_email_enabled;
                mfa_email_disabled; mfa_security_key_added;
                mfa_security_key_removed; device_added; device_modified;
                device_removed; network_device_added;
                network_device_modified; network_device_removed;
                activity_log_stream_created; activity_log_stream_modified;
                activity_log_stream_removed; vpn_client_connected;
                vpn_client_disconnected; vpn_client_connected_mfa;
                vpn_client_disconnected_mfa; vpn_client_mfa_failed;
                enrollment_started; enrollment_device_added;
                enrollment_completed; password_reset_requested;
                password_reset_started; password_reset_completed ]) as Hall
    by reflexivity.
  split_and!.
  - intros []; apply (bool_decide_unpack _); by vm_compute.
  - intros text. rewrite Hall. intros Hin.
    apply list_elem_of_fmap in Hin as [e [-> _]]. eauto.
  - apply (bool_decide_unpack _). by vm_compute.
  - reflexivity.
Qed.

End ActivityLogFacts.

(** * The further theorems at concrete inputs *)

Section MoreWitnesses.

Lemma setState_merges_witness :
  AuthStore.state (AuthStore.setState ∅ Sample.page)
    = AuthStore.state Sample.page.
Proof.
  destruct (setState_merges ∅ Sample.page) as (_ & Hempty & _).
  apply Hempty. reflexivity.
Defined.

Lemma resetState_undoes_login_witness :
  let login : gmap string (AuthStore.Value string) :=
    <["user" := AuthStore.VUser "admin"]>
      (<["openIdParams" := AuthStore.VParams [("client_id", "app")]]> ∅) in
  AuthStore.resetState (AuthStore.setState login (AuthStore.create None))
    = AuthStore.resetState (AuthStore.create None).
Proof.
  intros login.
  destruct (resetState_undoes_login login (AuthStore.create None))
    as (Hundo & _); [|exact Hundo].
  unfold login. rewrite !dom_insert_L, dom_empty_L. set_solver.
Defined.

Lemma requests_carry_validated_codes_witness :
  ∃ text, 1 ≤ String.length text ∧
          MFARecovery.mkRequest "RC-1"
            = Sample.trimObjectStrings (MFARecovery.mkRequest text).
Proof.
  apply (requests_carry_validated_codes (LoginSubjectData := string)
           (ApiError := string) Sample.LL Sample.trimObjectStrings
           Sample.with_totp
           [MFARecovery.Change " RC-1 "; MFARecovery.Submit]).
  vm_compute. apply list_elem_of_here.
Defined.

Lemma canManageDevices_iff_witness :
  UserDevices.canManageDevices Examples.settings_missing = true.
Proof.
  apply (proj2 (canManageDevices_iff Examples.settings_missing)).
  split; [by eexists|]. left. reflexivity.
Defined.

Lemma cards_and_box_follow_canManageDevices_witness :
  Forall (fun disabled =>
            disabled = false ↔
            UserDevices.canManageDevices Examples.settings_missing = true ∧
            UserDevices.network_present
              <$> UserDevices.appInfo Examples.settings_missing = Some true)
         (UserDevices.shown_boxes Examples.settings_missing).
Proof.
  exact (proj2 (cards_and_box_follow_canManageDevices
                  Examples.settings_missing)).
Defined.

Lemma reserved_for_admins_witness :
  Forall (fun c => UserDevices.modifiable c = false)
         (UserDevices.shown_cards Examples.restricted) ∧
  UserDevices.shown_boxes Examples.restricted = [true].
Proof.
  destruct (reserved_for_admins Examples.restricted
              {| UserDevices.admin_device_management := true |})
    as (_ & Hcards & _); [reflexivity|reflexivity|discriminate|].
  split; [exact Hcards|reflexivity].
Defined.

Lemma callback_reserves_shown_devices_witness :
  UserDevices.reservedDevices
    (UserDevices.callback Examples.profile "/me").1 = ["laptop"; "phone"] ∧
  length (UserDevices.reservedDevices
            (UserDevices.callback Examples.profile "/me").1) = 2.
Proof.
  destruct (callback_reserves_shown_devices Examples.restricted
              Examples.profile "/me") as (_ & Hlen & _); [reflexivity|].
  split; [reflexivity|exact Hlen].
Defined.

Lemma networksEffect_selects_oldest_witness :
  ∃ w' oldest,
    OverviewPage.networksEffect (Some 4%Z) "" (Some Examples.networks)
      Examples.world = OverviewPage.Done w' ∧
    OverviewPage.store_selectedNetworkId w' = Some oldest ∧
    oldest ∈ map OverviewPage.network_id Examples.networks ∧
    (∀ id, id ∈ map OverviewPage.network_id Examples.networks →
           (oldest ≤ id)%Z) ∧
    OverviewPage.store_networks w' = Some Examples.networks ∧
    OverviewPage.wizard_resets w' = OverviewPage.wizard_resets Examples.world.
Proof.
  apply (networksEffect_selects_oldest (Some 4%Z) "" Examples.networks
           Examples.world); [discriminate|reflexivity].
Defined.

Lemma networksEffect_keeps_valid_selection_witness :
  OverviewPage.networksEffect (Some 5%Z) "" (Some Examples.networks)
    Examples.world
  = OverviewPage.Done (OverviewPage.set_networks Examples.networks
                         Examples.world).
Proof.
  apply networksEffect_keeps_valid_selection.
  apply (bool_decide_unpack _). vm_compute. exact I.
Defined.

Lemma networksEffect_navigations_witness :
  ∃ w', OverviewPage.networksEffect None "?from=1" (Some []) Examples.world
          = OverviewPage.Done w' ∧
        OverviewPage.navigations w'
          = [("/admin/overview/?from=1", true); ("/admin/wizard", true)] ∧
        OverviewPage.wizard_resets w' = 1.
Proof.
  eexists. split; [reflexivity|].
  destruct (networksEffect_navigations None "?from=1" (Some [])
              Examples.world _ eq_refl) as (Hnav & Hreset & _).
  split; [exact Hnav|exact Hreset].
Defined.

Lemma stats_queries_need_a_number_witness :
  OverviewPage.networkStats_enabled None = false ∧
  OverviewPage.overviewStats_enabled (Some "1h") None = false.
Proof.
  destruct (stats_queries_need_a_number (Some "1h") None) as (_ & _ & Hnan).
  apply Hnan. reflexivity.
Defined.

Lemma bottomRow_shows_one_state_witness :
  OverviewPage.bottomRow false None
    = [OverviewPage.NoData (UserStats := string) (DeviceStats := string)].
Proof.
  destruct (bottomRow_shows_one_state (UserStats := string)
              (DeviceStats := string) false None) as (_ & _ & Hnone & _).
  apply Hnone. apply list_elem_of_here.
Defined.

Lemma gateways_status_on_desktop_witness :
  OverviewPage.NetworkGatewaysStatus None
  ∈ OverviewPage.render (NetworkStats := string) "desktop" None None false
      (Some Examples.users_only).
Proof.
  destruct (gateways_status_on_desktop (NetworkStats := string) "desktop"
              None None false (Some Examples.users_only)) as (Hiff & _).
  apply Hiff. split; reflexivity.
Defined.

Lemma activityLogModuleValues_enumerates_witness :
  ∃ m, ActivityLog.module_literal m = "enrollment".
Proof.
  destruct activityLogModuleValues_enumerates as (_ & Hback & _).
  apply Hback. apply (bool_decide_unpack _). vm_compute. exact I.
Defined.

Lemma activityLogEventTypeValues_enumerates_witness :
  ∃ e, ActivityLog.event_literal e = "recovery_code_used".
Proof.
  destruct activityLogEventTypeValues_enumerates as (_ & Hback & _).
  apply Hback. apply (bool_decide_unpack _). vm_compute. exact I.
Defined.

End MoreWitnesses.
